(** * Model promotion and serving cache: a shallow embedding

    This development embeds [src/model_registry.py] (class [ModelRegistry])
    and [src/predict.py] (the serving globals, [load_production_model] and
    [predict]) and settles the properties stated about them.

    The MLflow tracking client is an external collaborator.  It is modelled
    as an explicit store threaded through every call, together with a fault
    schedule that decides, call by call, whether the client raises.  Two
    facts of the serving environment that the source does not fix are
    parameters of the model: the type of the version numbers the client
    hands out, and the pydantic that validates the responses. *)

From Stdlib Require Import Floats.
From stdpp Require Import gmap strings pretty list.

Set Warnings "-inexact-float".
Set Default Proof Using "Type".

Open Scope string_scope.

(** ** The registry store *)

(** MLflow's stage labels.  The spec calls [StageNone] "Unstaged" and
    [Production] "Deployed". *)
Inductive Stage : Type :=
  | StageNone
  | Staging
  | Production
  | Archived.

#[global] Instance Stage_eq_dec : EqDecision Stage.
Proof. solve_decision. Defined.

Record ModelVersion : Type := mkModelVersion {
  version : N;
  current_stage : Stage;
  run_id : string
}.

(** A metric mapping: metric name to a binary64 value. *)
Abbreviation Metrics := (gmap string float).

(** The store seen through the client: the versions of each registered
    model name in insertion order, the metrics logged by each run, and the
    fault schedule.  Every client call consumes the head of [faults]; the
    call raises when that head is [true].  An exhausted schedule means the
    remaining calls go through.  A name bound to the empty list is a
    registered model without versions; a name that is not bound was never
    registered. *)
Record Store : Type := mkStore {
  models : gmap string (list ModelVersion);
  runs : gmap string Metrics;
  faults : list bool
}.

Definition versions_of (s : Store) (name : string) : list ModelVersion :=
  default [] (models s !! name).

Definition set_versions (s : Store) (name : string) (vs : list ModelVersion) : Store :=
  {| models := <[name := vs]> (models s); runs := runs s; faults := faults s |}.

Definition is_registered (s : Store) (name : string) : bool :=
  match models s !! name with
  | Some _ => true
  | None => false
  end.

(** ** Exceptions and the store monad *)

Inductive exn : Type :=
  | MlflowException
  | KeyError
  | ValidationError
  | PipelineError
  | HTTPException (status_code : N).

Inductive outcome (A : Type) : Type :=
  | Returns (a : A)
  | Raises (e : exn).
Arguments Returns {A} a.
Arguments Raises {A} e.

Definition M (A : Type) : Type := Store -> outcome A * Store.

Definition ret {A} (a : A) : M A := fun s => (Returns a, s).

Definition raise {A} (e : exn) : M A := fun s => (Raises e, s).

Definition bind {A B} (c : M A) (k : A -> M B) : M B :=
  fun s =>
    match c s with
    | (Returns a, s') => k a s'
    | (Raises e, s') => (Raises e, s')
    end.

(** [try: c except Exception as e: h e] *)
Definition try_except {A} (c : M A) (h : exn -> M A) : M A :=
  fun s =>
    match c s with
    | (Returns a, s') => (Returns a, s')
    | (Raises e, s') => h e s'
    end.

Notation "'let*' x ':=' c 'in' k" := (bind c (fun x => k))
  (at level 10, x name, c at level 200, k at level 200).

(** [for x in xs: body x] *)
Fixpoint for_each {A} (xs : list A) (body : A -> M unit) : M unit :=
  match xs with
  | [] => ret tt
  | x :: rest => let* _ := body x in for_each rest body
  end.

(** ** The client calls used by the program *)

(** One round trip to the store: it consumes the head of the schedule and
    raises when that head says so. *)
Definition next_fault (s : Store) : bool := hd false (faults s).

Definition tick (s : Store) : Store :=
  {| models := models s; runs := runs s; faults := tl (faults s) |}.

Definition call : M unit :=
  fun s =>
    (if next_fault s then Raises MlflowException else Returns tt, tick s).

Definition read_store : M Store := fun s => (Returns s, s).

Definition write_store (s' : Store) : M unit := fun _ => (Returns tt, s').

(** The newest version (largest number) among those of [vs] in stage [st]. *)
Fixpoint latest_in_stage (vs : list ModelVersion) (st : Stage) : option ModelVersion :=
  match vs with
  | [] => None
  | mv :: rest =>
      let later := latest_in_stage rest st in
      if decide (current_stage mv = st) then
        match later with
        | Some other => if (version mv <? version other)%N then Some other else Some mv
        | None => Some mv
        end
      else later
  end.

(** [client.get_latest_versions(name, stages=...)]: the latest version of
    each requested stage, for the stages that have one.  The client looks
    the registered model up first: a name that was never registered is an
    error. *)
Definition get_latest_versions (name : string) (stages : list Stage) : M (list ModelVersion) :=
  let* _ := call in
  let* s := read_store in
  if is_registered s name
  then ret (omap (latest_in_stage (versions_of s name)) stages)
  else raise MlflowException.

(** [client.search_model_versions(f"name='{name}'")]: a filter over all
    versions, empty for a name the store does not know. *)
Definition search_model_versions (name : string) : M (list ModelVersion) :=
  let* _ := call in
  let* s := read_store in
  ret (versions_of s name).

(** [client.get_run(run_id).data.metrics] *)
Definition get_run (rid : string) : M Metrics :=
  let* _ := call in
  let* s := read_store in
  match runs s !! rid with
  | Some metrics => ret metrics
  | None => raise MlflowException
  end.

Definition set_stage (v : N) (st : Stage) (mv : ModelVersion) : ModelVersion :=
  if decide (version mv = v)
  then {| version := version mv; current_stage := st; run_id := run_id mv |}
  else mv.

Definition has_version (vs : list ModelVersion) (v : N) : bool :=
  existsb (fun mv => (version mv =? v)%N) vs.

(** [client.transition_model_version_stage(name, version, stage)] with the
    client's default [archive_existing_versions=False]: only the named
    version moves; an unknown version is an error. *)
Definition transition_model_version_stage (name : string) (v : N) (st : Stage) : M unit :=
  let* _ := call in
  let* s := read_store in
  if has_version (versions_of s name) v
  then write_store (set_versions s name (set_stage v st <$> versions_of s name))
  else raise MlflowException.

Definition next_version (vs : list ModelVersion) : N :=
  (1 + foldr (fun mv acc => N.max (version mv) acc) 0 vs)%N.

(** [mlflow.register_model(model_uri=f"runs:/{run_id}/{artifact_path}", name=...)]:
    the run named by the URI is resolved first, and an unknown run is an
    error that creates no version; otherwise the version gets a fresh
    number, in stage "None", under a name that is registered from then
    on. *)
Definition mlflow_register_model (rid : string) (name : string) : M ModelVersion :=
  let* _ := call in
  let* s := read_store in
  match runs s !! rid with
  | Some _ =>
      let mv := {| version := next_version (versions_of s name);
                   current_stage := StageNone; run_id := rid |} in
      let* _ := write_store (set_versions s name (versions_of s name ++ [mv])) in
      ret mv
  | None => raise MlflowException
  end.

(** ** [class ModelRegistry] *)

Record ModelRegistry : Type := mkModelRegistry {
  tracking_uri : string;
  model_name : string
}.

(** [register_model(run_id, artifact_path, tags)].  The artifact path and
    the tags only travel to the client inside the model URI; they play no
    part in the version number or the stage, and are left out. *)
Definition register_model (self : ModelRegistry) (rid : string) : M N :=
  let* model_version := mlflow_register_model rid (model_name self) in
  ret (version model_version).

Definition get_production_model_metrics (self : ModelRegistry) : M (option Metrics) :=
  try_except
    (let* prod_versions := get_latest_versions (model_name self) [Production] in
     match prod_versions with
     | [] => ret None
     | prod_version :: _ =>
         let* run := get_run (run_id prod_version) in
         ret (Some run)
     end)
    (fun _ => ret None).

Definition compare_models (self : ModelRegistry) (candidate_run_id : string)
    (metric_name : string) (higher_is_better : bool) : M bool :=
  let* candidate_run := get_run candidate_run_id in
  match candidate_run !! metric_name with
  | None => ret false
  | Some candidate_metric =>
      let* prod_metrics := get_production_model_metrics self in
      match prod_metrics with
      | None => ret true
      | Some prod_metrics =>
          match prod_metrics !! metric_name with
          | None => ret true
          | Some prod_metric =>
              ret (if higher_is_better
                   then (prod_metric <? candidate_metric)%float
                   else (candidate_metric <? prod_metric)%float)
          end
      end
  end.

Definition promote_to_production (self : ModelRegistry) (v : N)
    (archive_existing : bool) : M bool :=
  try_except
    (let* _ := (if archive_existing then
        let* prod_versions := get_latest_versions (model_name self) [Production] in
        for_each prod_versions (fun prod_version =>
          transition_model_version_stage (model_name self) (version prod_version) Archived)
      else ret tt) in
     let* _ := transition_model_version_stage (model_name self) v Production in
     ret true)
    (fun _ => ret false).

Definition auto_promote_if_better (self : ModelRegistry) (rid : string)
    (metric_name : string) (higher_is_better : bool) : M (option N) :=
  let* v := register_model self rid in
  let* is_better := compare_models self rid metric_name higher_is_better in
  if is_better then
    let* success := promote_to_production self v true in
    if success then ret (Some v) else ret None
  else ret None.

(** ** [src/predict.py]: the serving process *)

Module Serving.

Record PredictionRequest : Type := mkPredictionRequest {
  patient_id : Z;
  gender : string;
  age : Z;
  scheduled_day : string;
  appointment_day : string;
  neighbourhood : string;
  scholarship : bool;
  hypertension : bool;
  diabetes : bool;
  alcoholism : bool;
  handicap : Z;
  sms_received : bool
}.

Record PredictionResponse : Type := mkPredictionResponse {
  probability : float;
  is_no_show : bool;
  model_name : string;
  model_version : string;
  prediction_timestamp : string
}.

(** A field value of the response as it is serialised. *)
Inductive json : Type :=
  | JFloat (x : float)
  | JBool (b : bool)
  | JString (s : string).


(** What [mlflow.pyfunc.load_model] hands back: an opaque predictor.  The
    record remembers which registered version the artifact belongs to. *)
Record Predictor : Type := mkPredictor {
  loaded_name : string;
  loaded_version : N
}.

Inductive ModelUri : Type :=
  | VersionUri (name : string) (v : N)      (* models:/<name>/<version> *)
  | StageUri (name : string) (st : Stage).  (* models:/<name>/<stage> *)

(** [mlflow.pyfunc.load_model(model_uri)] *)
Definition load_model (uri : ModelUri) : M Predictor :=
  let* _ := call in
  let* s := read_store in
  match uri with
  | VersionUri name v =>
      if has_version (versions_of s name) v
      then ret {| loaded_name := name; loaded_version := v |}
      else raise MlflowException
  | StageUri name st =>
      match latest_in_stage (versions_of s name) st with
      | Some mv => ret {| loaded_name := name; loaded_version := version mv |}
      | None => raise MlflowException
      end
  end.

(** A value held by the dict [model_info].  The literals of the program are
    strings; [latest.version] and [prod_model.version] are stored as the
    client hands them out, without conversion (lines 65 and 81). *)
Inductive pyvalue : Type :=
  | PyStr (s : string)
  | PyInt (n : N).

(** The type of [ModelVersion.version] depends on the store behind the
    tracking URI: the file store (the default [file:///app/mlruns]) builds
    the entity with an [int], a tracking server answers with a [str]. *)
Inductive version_type : Type :=
  | IntVersion
  | StrVersion.

Definition raw_version (t : version_type) (n : N) : pyvalue :=
  match t with
  | IntVersion => PyInt n
  | StrVersion => PyStr (pretty n)
  end.

(** How [BaseModel] validates a value given for a field declared [str]: a
    string is taken as it is; an integer is converted to its decimal
    string by pydantic 1 and rejected by pydantic 2. *)
Inductive pydantic : Type :=
  | Pydantic1
  | Pydantic2.

Definition validate_str (p : pydantic) (v : pyvalue) : outcome string :=
  match v with
  | PyStr s => Returns s
  | PyInt n =>
      match p with
      | Pydantic1 => Returns (pretty n)
      | Pydantic2 => Raises ValidationError
      end
  end.

(** The module globals [model] and [model_info]. *)
Record Globals : Type := mkGlobals {
  model : option Predictor;
  model_info : gmap string pyvalue
}.

Definition initial_globals : Globals :=
  {| model := None;
     model_info := <["name" := PyStr "unknown"]> (<["version" := PyStr "unknown"]> ∅) |}.

(** [{"name": name, "version": v, "stage": stage}] *)
Definition info (name : string) (v : pyvalue) (stage : string) : gmap string pyvalue :=
  <["name" := PyStr name]> (<["version" := v]> (<["stage" := PyStr stage]> ∅)).

(** [max(all_versions, key=lambda x: int(x.version))]: the first maximal
    element, [None] standing for the empty sequence. *)
Definition max_by_version (vs : list ModelVersion) : option ModelVersion :=
  foldl (fun best mv =>
           match best with
           | None => Some mv
           | Some b => if (version b <? version mv)%N then Some mv else Some b
           end) None vs.

(** [d[k]] on a dict *)
Definition getitem (d : gmap string pyvalue) (k : string) : outcome pyvalue :=
  match d !! k with
  | Some v => Returns v
  | None => Raises KeyError
  end.

Definition obind {A B} (o : outcome A) (k : A -> outcome B) : outcome B :=
  match o with
  | Returns a => k a
  | Raises e => Raises e
  end.

(** [PredictionResponse(probability=..., is_no_show=..., model_name=...,
    model_version=..., prediction_timestamp=...)]: the constructor
    validates the two fields that are filled from [model_info]; the other
    three are given a float, a bool and a str by the caller. *)
Definition new_PredictionResponse (p : pydantic) (proba : float) (label : bool)
    (name v : pyvalue) (now : string) : outcome PredictionResponse :=
  obind (validate_str p name) (fun name =>
  obind (validate_str p v) (fun v =>
  Returns {| probability := proba; is_no_show := label;
             model_name := name; model_version := v;
             prediction_timestamp := now |})).

Section Process.

(** The environment of the process: the configured model name; the type of
    the version numbers its registry client hands out; the pydantic that
    validates the responses; and the part of [predict] that lies outside
    this file's own control flow, namely the feature pipeline of
    [src.feature_engineering] followed by the loaded predictor's own
    [predict]/[predict_proba] (lines 120 to 167).  [score m request] is
    the probability they compute, or the exception they raise. *)
Variable MODEL_NAME : string.
Variable versions_as : version_type.
Variable validation : pydantic.
Variable score : Predictor -> PredictionRequest -> outcome float.

(** The [try] suite of [load_production_model] (lines 51 to 84). *)
Definition load_production_model_try (g : Globals) : M Globals :=
  let* prod_models := get_latest_versions MODEL_NAME [Production] in
  match prod_models with
  | [] =>
      let* all_versions := search_model_versions MODEL_NAME in
      match max_by_version all_versions with
      | Some latest =>
          let* m := load_model (VersionUri MODEL_NAME (version latest)) in
          ret {| model := Some m;
                 model_info :=
                   info MODEL_NAME (raw_version versions_as (version latest)) "None" |}
      | None =>
          ret {| model := model g; model_info := info "none" (PyStr "0") "none" |}
      end
  | prod_model :: _ =>
      let* m := load_model (StageUri MODEL_NAME Production) in
      ret {| model := Some m;
             model_info :=
               info MODEL_NAME (raw_version versions_as (version prod_model))
                 "Production" |}
  end.

(** [load_production_model()]: the suite above under
    [except Exception as e], whose handler resets both globals. *)
Definition load_production_model (g : Globals) : M Globals :=
  try_except
    (load_production_model_try g)
    (fun _ =>
       ret {| model := None;
              model_info := info "fallback" (PyStr "0.0.0") "error" |}).

(** The part of [predict] after the reload.  [now] is
    [datetime.utcnow().isoformat()].  Without a predictor the response is
    built outside any [try]; with one, everything from the feature pipeline
    to the construction of the response lies inside the [try] of lines 119
    to 178, whose handler turns any exception into HTTP 500. *)
Definition respond (now : string) (request : PredictionRequest) (g : Globals)
    : outcome PredictionResponse :=
  match model g with
  | None =>
      obind (getitem (model_info g) "name") (fun name =>
      obind (getitem (model_info g) "version") (fun v =>
      new_PredictionResponse validation 0.5 false name v now))
  | Some m =>
      match
        obind (score m request) (fun proba =>
        obind (getitem (model_info g) "name") (fun name =>
        obind (getitem (model_info g) "version") (fun v =>
        new_PredictionResponse validation proba (0.5 <? proba)%float name v now)))
      with
      | Returns r => Returns r
      | Raises _ => Raises (HTTPException 500)
      end
  end.

(** [predict(request)]: the globals it leaves behind and what the handler
    returns or raises. *)
Definition predict (now : string) (request : PredictionRequest) (g : Globals)
    : M (Globals * outcome PredictionResponse) :=
  let* g' := load_production_model g in
  ret (g', respond now request g').

End Process.

(** What [health] and [reload_model] answer. *)
Module HealthReport.
Record t : Type := mk {
  status : string;
  model_loaded : bool;
  model_info : gmap string pyvalue;
  mlflow_uri : string
}.
End HealthReport.

Module ReloadReport.
Record t : Type := mk {
  status : string;
  message : string;
  model_info : gmap string pyvalue
}.
End ReloadReport.

Section Endpoints.

Variable MLFLOW_TRACKING_URI : string.
Variable MODEL_NAME : string.
Variable versions_as : version_type.

(** [startup_event()]: the process starts from the initial globals and
    loads once. *)
Definition startup_event : M Globals :=
  load_production_model MODEL_NAME versions_as initial_globals.

(** [health()]: reads the globals, calls nothing. *)
Definition health (g : Globals) : HealthReport.t :=
  {| HealthReport.status := "healthy";
     HealthReport.model_loaded :=
       match model g with Some _ => true | None => false end;
     HealthReport.model_info := model_info g;
     HealthReport.mlflow_uri := MLFLOW_TRACKING_URI |}.

(** [reload_model()]: the globals it leaves and what the handler returns
    or raises.  An exception out of [load_production_model] would become
    an HTTP 500. *)
Definition reload_model (g : Globals) : M (Globals * outcome ReloadReport.t) :=
  fun s =>
    match load_production_model MODEL_NAME versions_as g s with
    | (Returns g', s') =>
        (Returns (g', Returns {| ReloadReport.status := "success";
                                 ReloadReport.message := "Model reloaded successfully";
                                 ReloadReport.model_info := model_info g' |}),
         s')
    | (Raises _, s') => (Returns (g, Raises (HTTPException 500)), s')
    end.

End Endpoints.

End Serving.

(** ** Request handlers sharing the globals

    FastAPI runs the handlers [predict] and [reload_model] on worker
    threads of one process, and both reach the module globals.  Inside
    [load_production_model], [model] and [model_info] are assigned by two
    statements; [predict] reads [model] and [model_info] in separate
    expressions.  A thread switch can fall between any two of these
    accesses, which the step machine below makes explicit. *)

Module Interleaving.

Import Serving.

Inductive assign : Type :=
  | SetModel (m : option Predictor)
  | SetModelInfo (d : gmap string pyvalue).

Definition exec_assign (g : Globals) (a : assign) : Globals :=
  match a with
  | SetModel m => {| model := m; model_info := model_info g |}
  | SetModelInfo d => {| model := model g; model_info := d |}
  end.

(** The assignments to the globals that one run of [load_production_model]
    performs, in program order: the registry and the artifact store are
    consulted first, the globals are written afterwards. *)
Definition load_production_model_assigns (MODEL_NAME : string)
    (versions_as : version_type) : M (list assign) :=
  try_except
    (let* prod_models := get_latest_versions MODEL_NAME [Production] in
     match prod_models with
     | [] =>
         let* all_versions := search_model_versions MODEL_NAME in
         match max_by_version all_versions with
         | Some latest =>
             let* m := load_model (VersionUri MODEL_NAME (version latest)) in
             ret [SetModel (Some m);
                  SetModelInfo
                    (info MODEL_NAME (raw_version versions_as (version latest)) "None")]
         | None =>
             ret [SetModelInfo (info "none" (PyStr "0") "none")]
         end
     | prod_model :: _ =>
         let* m := load_model (StageUri MODEL_NAME Production) in
         ret [SetModel (Some m);
              SetModelInfo
                (info MODEL_NAME (raw_version versions_as (version prod_model))
                   "Production")]
     end)
    (fun _ =>
       ret [SetModel None; SetModelInfo (info "fallback" (PyStr "0.0.0") "error")]).

(** Where a thread running [predict] stands. *)
Inductive predict_pc : Type :=
  | InReload (pending : list assign)
      (* line 107, with the assignments still to run; with none left, at
         the test [if not model] of line 109 *)
  | AtInference
      (* line 161, about to evaluate [model.predict(X)] *)
  | AtResponse (used : option Predictor) (proba : float)
      (* lines 111 and 169, about to read [model_info] *)
  | Finished (used : option Predictor) (out : outcome PredictionResponse).

Section Machine.

Variable validation : pydantic.
Variable score : Predictor -> PredictionRequest -> outcome float.
Variable now : string.
Variable request : PredictionRequest.

(** One atomic step of the [predict] thread on the shared globals. *)
Definition predict_step (pc : predict_pc) (g : Globals) : predict_pc * Globals :=
  match pc with
  | InReload (a :: pending) => (InReload pending, exec_assign g a)
  | InReload [] =>
      match model g with
      | None => (AtResponse None 0.5%float, g)
      | Some _ => (AtInference, g)
      end
  | AtInference =>
      match model g with
      | Some m =>
          match score m request with
          | Returns proba => (AtResponse (Some m) proba, g)
          | Raises _ => (Finished (Some m) (Raises (HTTPException 500)), g)
          end
      | None => (Finished None (Raises (HTTPException 500)), g)
      end
  | AtResponse used proba =>
      let built :=
        obind (getitem (model_info g) "name") (fun name =>
        obind (getitem (model_info g) "version") (fun v =>
        new_PredictionResponse validation proba
          match used with
          | Some _ => (0.5 <? proba)%float
          | None => false
          end name v now)) in
      (Finished used
         match used, built with
         | Some _, Raises _ => Raises (HTTPException 500)
         | _, _ => built
         end, g)
  | Finished used out => (Finished used out, g)
  end.

(** The process: the globals, one thread in [predict], and one other
    thread inside [load_production_model] (from [reload_model] or from
    another request) with its assignments still to run. *)
Record process : Type := mkProcess {
  globals : Globals;
  predicting : predict_pc;
  reloading : list assign
}.

Inductive thread : Type := PredictThread | ReloadThread.

Definition step (p : process) (t : thread) : process :=
  match t with
  | PredictThread =>
      let next := predict_step (predicting p) (globals p) in
      {| globals := snd next; predicting := fst next; reloading := reloading p |}
  | ReloadThread =>
      match reloading p with
      | a :: pending =>
          {| globals := exec_assign (globals p) a;
             predicting := predicting p; reloading := pending |}
      | [] => p
      end
  end.

(** The process after the scheduler has picked the threads of [schedule]
    one after the other. *)
Definition run (schedule : list thread) (p : process) : process :=
  foldl step p schedule.

End Machine.

End Interleaving.

(** ** [scripts/trigger_model_deployment.py] *)

Module Deployment.

(** What [subprocess.run(cmd, capture_output=True, text=True)] does: the
    program is missing, or it runs to an exit status, or the call raises
    something else. *)
Inductive process_result : Type :=
  | FileNotFoundError
  | CompletedProcess (returncode : Z) (stderr : string)
  | ProcessRaises.

(** What [requests.post] does: a response, or an exception. *)
Inductive post_result : Type :=
  | Response (status_code : Z) (text : string)
  | PostRaises.

(** The JSON body of the dispatch request. *)
Record dispatch : Type := mkDispatch {
  ref : string;
  inputs : list (string * string)
}.

(** The outside world of the script. *)
Record world : Type := mkWorld {
  subprocess_run : list string -> process_result;
  requests_post : string -> list (string * string) -> dispatch -> post_result
}.

(** What the script did to the outside world, in order. *)
Inductive action : Type :=
  | Ran (cmd : list string)
  | Posted (url : string) (headers : list (string * string)) (json : dispatch).

(** How a call ends: it returns, it leaves through [sys.exit], or an
    exception it does not catch propagates. *)
Inductive ending : Type :=
  | Returned
  | SysExit (code : Z)
  | Propagated.

(** [if github_token:] on an [Optional[str]] *)
Definition truthy (github_token : option string) : bool :=
  match github_token with
  | Some token => negb (String.eqb token "")
  | None => false
  end.

Definition trigger_via_api (w : world) (model_version repo_owner repo_name
    workflow_file github_token : string) : list action * ending :=
  let url := "https://api.github.com/repos/" +:+ repo_owner +:+ "/" +:+ repo_name
             +:+ "/actions/workflows/" +:+ workflow_file +:+ "/dispatches" in
  let headers := [("Authorization", "token " +:+ github_token);
                  ("Accept", "application/vnd.github.v3+json")] in
  let data := {| ref := "main"; inputs := [("model_version", model_version)] |} in
  match requests_post w url headers data with
  | Response status_code _ =>
      ([Posted url headers data],
       if (status_code =? 204)%Z then Returned else SysExit 1)
  | PostRaises => ([Posted url headers data], Propagated)
  end.

Definition trigger_github_workflow (w : world) (model_version repo_owner repo_name
    workflow_file : string) (github_token : option string) : list action * ending :=
  let cmd := ["gh"; "workflow"; "run"; workflow_file;
              "-f"; "model_version=" +:+ model_version;
              "-R"; repo_owner +:+ "/" +:+ repo_name] in
  let fall_back :=
    match github_token with
    | Some token =>
        if truthy github_token
        then let '(acts, e) := trigger_via_api w model_version repo_owner repo_name
                                 workflow_file token in
             (Ran cmd :: acts, e)
        else ([Ran cmd], SysExit 1)
    | None => ([Ran cmd], SysExit 1)
    end in
  match subprocess_run w cmd with
  | CompletedProcess returncode _ =>
      if (returncode =? 0)%Z then ([Ran cmd], Returned) else fall_back
  | FileNotFoundError => fall_back
  | ProcessRaises => ([Ran cmd], Propagated)
  end.

End Deployment.

(** ** The comparison policy in the specification's words *)

(** [compare(candidateMetrics, incumbentMetrics-or-absent, metricName,
    higherIsBetter)], rule by rule. *)
Definition compare_policy (candidateMetrics : Metrics) (incumbent : option Metrics)
    (metricName : string) (higherIsBetter : bool) : bool :=
  match candidateMetrics !! metricName with
  | None => false
  | Some c =>
      match incumbent with
      | None => true
      | Some incumbentMetrics =>
          match incumbentMetrics !! metricName with
          | None => true
          | Some i => if higherIsBetter then (i <? c)%float else (c <? i)%float
          end
      end
  end.

(** ** Vocabulary of the statements *)

(** The versions of a list that hold stage [Production]. *)
Definition deployed (vs : list ModelVersion) : list ModelVersion :=
  filter (fun mv => current_stage mv = Production) vs.

Definition at_most_one_deployed (vs : list ModelVersion) : Prop :=
  length (deployed vs) <= 1.

(** The stage of version number [v], when the list has it. *)
Definition stage_of (vs : list ModelVersion) (v : N) : option Stage :=
  current_stage <$> List.find (fun mv => (version mv =? v)%N) vs.

(** Version numbers are not repeated and at most one version is deployed. *)
Definition registry_ok (vs : list ModelVersion) : Prop :=
  NoDup (version <$> vs) /\ at_most_one_deployed vs.

(** What the archiving loop of [promote_to_production] makes of a version
    list: the version that [get_latest_versions] reports, if any, moves to
    Archived. *)
Definition archive_latest (vs : list ModelVersion) : list ModelVersion :=
  match latest_in_stage vs Production with
  | Some prod_version => set_stage (version prod_version) Archived <$> vs
  | None => vs
  end.

(** A call made on the promotion controller, and the store it leaves
    behind whether it returns or raises. *)
Inductive registry_call : Type :=
  | CallRegister (self : ModelRegistry) (rid : string)
  | CallPromote (self : ModelRegistry) (v : N).

Definition after_call (s : Store) (c : registry_call) : Store :=
  match c with
  | CallRegister self rid => snd (register_model self rid s)
  | CallPromote self v => snd (promote_to_production self v true s)
  end.

Definition after_calls (s : Store) (calls : list registry_call) : Store :=
  foldl after_call s calls.

(** The version [load_production_model] settles on, with the stage label
    it records: the newest Production version, else the highest-numbered
    version, else nothing. *)
Definition resolved (vs : list ModelVersion) : option (N * string) :=
  match latest_in_stage vs Production with
  | Some prod_model => Some (version prod_model, "Production")
  | None =>
      match Serving.max_by_version vs with
      | Some latest => Some (version latest, "None")
      | None => None
      end
  end.

(** A store whose remaining calls all go through. *)
Definition fault_free (s : Store) : Prop := forallb negb (faults s) = true.

(** The state [load_production_model] leaves after a failed load. *)
Definition fallback_globals : Serving.Globals :=
  {| Serving.model := None;
     Serving.model_info := Serving.info "fallback" (Serving.PyStr "0.0.0") "error" |}.

(** The state it leaves when the name is registered without any version. *)
Definition no_model_globals (g : Serving.Globals) : Serving.Globals :=
  {| Serving.model := Serving.model g;
     Serving.model_info := Serving.info "none" (Serving.PyStr "0") "none" |}.

(** The state it leaves after loading version [v] found in [stage]. *)
Definition loaded_globals (MODEL_NAME : string) (versions_as : Serving.version_type)
    (v : N) (stage : string) : Serving.Globals :=
  {| Serving.model := Some (Serving.mkPredictor MODEL_NAME v);
     Serving.model_info :=
       Serving.info MODEL_NAME (Serving.raw_version versions_as v) stage |}.

(** Whether the response model takes the version numbers of the client:
    not when they are integers and pydantic 2 validates. *)
Definition version_accepted (versions_as : Serving.version_type)
    (validation : Serving.pydantic) : bool :=
  match versions_as, validation with
  | Serving.IntVersion, Serving.Pydantic2 => false
  | _, _ => true
  end.

(** ** Concrete registries used as test inputs *)

Module Examples.

Definition registry : ModelRegistry :=
  {| tracking_uri := "file:///app/mlruns"; model_name := "noshow-prediction-model" |}.

Definition auc (x : float) : Metrics := <["auc" := x]> ∅.

Definition store_with (vs : list ModelVersion) (rs : gmap string Metrics)
    (fs : list bool) : Store :=
  {| models := <["noshow-prediction-model" := vs]> ∅; runs := rs; faults := fs |}.

(** Nothing was ever registered. *)
Definition empty_store : Store := {| models := ∅; runs := ∅; faults := [] |}.

(** The model name is registered and has no version. *)
Definition no_versions_store : Store := store_with [] ∅ [].

Definition two_runs : gmap string Metrics :=
  <["run-1" := auc 0.80]> (<["run-2" := auc 0.75]> ∅).

Definition four_runs : gmap string Metrics :=
  <["run-3" := auc 0.85]> (<["run-4" := auc 0.90]> two_runs).

(** Versions 1 (Archived), 2 (Production) and 3 (unstaged). *)
Definition three_versions (fs : list bool) : Store :=
  store_with [mkModelVersion 1 Archived "run-1";
              mkModelVersion 2 Production "run-2";
              mkModelVersion 3 StageNone "run-3"] four_runs fs.

(** Globals of a process that loaded version 1 while it was in Production. *)
Definition serving_v1 (versions_as : Serving.version_type) : Serving.Globals :=
  loaded_globals "noshow-prediction-model" versions_as 1 "Production".

Definition request : Serving.PredictionRequest :=
  {| Serving.patient_id := 1; Serving.gender := "F"; Serving.age := 30;
     Serving.scheduled_day := "2016-04-29"; Serving.appointment_day := "2016-05-03";
     Serving.neighbourhood := "CENTRO"; Serving.scholarship := false;
     Serving.hypertension := false; Serving.diabetes := false;
     Serving.alcoholism := false; Serving.handicap := 0;
     Serving.sms_received := true |}.

(** A pipeline that scores every request 0.75, whatever the predictor. *)
Definition constant_score (m : Serving.Predictor) (r : Serving.PredictionRequest)
    : outcome float := Returns 0.75%float.

(** Version 1 is in Production with auc 0.80; run-2 (auc 0.75) is the
    candidate.  [fs] is the fault schedule. *)
Definition incumbent_store (fs : list bool) : Store :=
  store_with [mkModelVersion 1 Production "run-1"] two_runs fs.

(** The same registry with two more runs logged: run-3 (auc 0.85) and
    run-4 (auc 0.90). *)
Definition challenger_store (fs : list bool) : Store :=
  store_with [mkModelVersion 1 Production "run-1"] four_runs fs.

(** Version 1 is in Production and its run logged NaN for auc; run-2
    (auc 0.75) is the candidate. *)
Definition nan_incumbent_store : Store :=
  store_with [mkModelVersion 1 Production "run-1"]
    (<["run-1" := auc nan]> (<["run-2" := auc 0.75]> ∅)) [].


(** A pipeline that always raises. *)
Definition failing_score (m : Serving.Predictor) (r : Serving.PredictionRequest)
    : outcome float := Raises PipelineError.

(** Version 1 in Production, version 2 registered and unstaged. *)
Definition candidate_store (fs : list bool) : Store :=
  store_with [mkModelVersion 1 Production "run-1";
              mkModelVersion 2 StageNone "run-2"] two_runs fs.

(** Worlds for the deployment script: [gh] missing or exiting with a
    status, and the API answering with a status. *)
Definition world_of (gh : Deployment.process_result) (status : Z) : Deployment.world :=
  {| Deployment.subprocess_run := fun _ => gh;
     Deployment.requests_post := fun _ _ _ => Deployment.Response status "" |}.

End Examples.

(** * Properties *)

(** ** Binary64 comparison *)

Lemma SFcompare_Eq_sym x y : SFcompare x y = Some Eq -> SFcompare y x = Some Eq.
Proof.
  destruct x as [sx|sx| |sx mx ex], y as [sy|sy| |sy my ey]; simpl; try congruence;
    try (destruct sx; congruence); try (destruct sy; congruence).
  - destruct sx, sy; congruence.
  - destruct sx, sy; try congruence.
    + rewrite (Z.compare_antisym ex ey). destruct (ex ?= ey)%Z; simpl; try congruence.
      fold (Pos.compare mx my). fold (Pos.compare my mx).
      rewrite (Pos.compare_antisym mx my).
      destruct (mx ?= my)%positive; simpl; congruence.
    + rewrite (Z.compare_antisym ex ey). destruct (ex ?= ey)%Z; simpl; try congruence.
      fold (Pos.compare mx my). fold (Pos.compare my mx).
      rewrite (Pos.compare_antisym mx my).
      destruct (mx ?= my)%positive; simpl; congruence.
Qed.

(** Values that compare equal are not strictly ordered, either way. *)
Lemma float_tie (x y : float) :
  (x =? y)%float = true -> (x <? y)%float = false /\ (y <? x)%float = false.
Proof.
  rewrite FloatAxioms.eqb_spec, !FloatAxioms.ltb_spec. unfold SFeqb, SFltb. intros H.
  assert (Hxy : SFcompare (Prim2SF x) (Prim2SF y) = Some Eq).
  { destruct (SFcompare (Prim2SF x) (Prim2SF y)) as [[]|]; congruence. }
  rewrite (SFcompare_Eq_sym _ _ Hxy), Hxy. split; reflexivity.
Qed.

(** ** Store calls *)

Lemma versions_of_tick s name : versions_of (tick s) name = versions_of s name.
Proof. reflexivity. Qed.

Lemma is_registered_tick s name : is_registered (tick s) name = is_registered s name.
Proof. reflexivity. Qed.

Lemma is_registered_lookup s name :
  is_registered s name = true <-> is_Some (models s !! name).
Proof.
  unfold is_registered. destruct (models s !! name) as [vs|].
  - split; [by exists vs|done].
  - split; [discriminate|]. intros [vs Hvs]. discriminate.
Qed.

(** A name that has a version is registered. *)
Lemma is_registered_elem s name mv : mv ∈ versions_of s name -> is_registered s name = true.
Proof.
  unfold versions_of, is_registered. destruct (models s !! name); [done|].
  simpl. intros H. by apply elem_of_nil in H.
Qed.

Lemma versions_of_unregistered s name :
  is_registered s name = false -> versions_of s name = [].
Proof.
  unfold versions_of, is_registered. destruct (models s !! name); [discriminate|done].
Qed.

Lemma get_latest_versions_eq name stages s :
  get_latest_versions name stages s =
  if next_fault s then (Raises MlflowException, tick s)
  else if is_registered s name
       then (Returns (omap (latest_in_stage (versions_of s name)) stages), tick s)
       else (Raises MlflowException, tick s).
Proof.
  unfold get_latest_versions, call, read_store, ret, raise, bind.
  destruct (next_fault s); [reflexivity|].
  rewrite is_registered_tick, versions_of_tick.
  destruct (is_registered s name); reflexivity.
Qed.

Lemma search_model_versions_eq name s :
  search_model_versions name s =
  if next_fault s then (Raises MlflowException, tick s)
  else (Returns (versions_of s name), tick s).
Proof.
  unfold search_model_versions, call, read_store, ret, bind.
  destruct (next_fault s); reflexivity.
Qed.

Lemma get_run_eq rid s :
  get_run rid s =
  if next_fault s then (Raises MlflowException, tick s)
  else match runs s !! rid with
       | Some metrics => (Returns metrics, tick s)
       | None => (Raises MlflowException, tick s)
       end.
Proof.
  unfold get_run, call, read_store, ret, raise, bind.
  destruct (next_fault s); [reflexivity|]. simpl.
  destruct (runs s !! rid); reflexivity.
Qed.

Lemma transition_model_version_stage_eq name v st s :
  transition_model_version_stage name v st s =
  if next_fault s then (Raises MlflowException, tick s)
  else if has_version (versions_of s name) v
       then (Returns tt,
             set_versions (tick s) name (set_stage v st <$> versions_of s name))
       else (Raises MlflowException, tick s).
Proof.
  unfold transition_model_version_stage, call, read_store, write_store, raise, bind.
  destruct (next_fault s); [reflexivity|]. rewrite versions_of_tick.
  destruct (has_version _ _); reflexivity.
Qed.

Lemma mlflow_register_model_eq rid name s :
  mlflow_register_model rid name s =
  if next_fault s then (Raises MlflowException, tick s)
  else match runs s !! rid with
       | Some _ =>
           let mv := {| version := next_version (versions_of s name);
                        current_stage := StageNone; run_id := rid |} in
           (Returns mv, set_versions (tick s) name (versions_of s name ++ [mv]))
       | None => (Raises MlflowException, tick s)
       end.
Proof.
  unfold mlflow_register_model, call, read_store, write_store, ret, raise, bind.
  destruct (next_fault s); [reflexivity|]. simpl.
  destruct (runs s !! rid); reflexivity.
Qed.

Lemma get_run_Returns rid s metrics s1 :
  get_run rid s = (Returns metrics, s1) ->
  next_fault s = false /\ runs s !! rid = Some metrics /\ s1 = tick s.
Proof.
  rewrite get_run_eq.
  destruct (next_fault s); [congruence|].
  destruct (runs s !! rid); intros [= <- <-]; auto.
Qed.

(** What [get_production_model_metrics] computes, call by call: it never
    raises, and every failure on the way is turned into [None]. *)
Lemma latest_in_stage_nil st : latest_in_stage [] st = None.
Proof. reflexivity. Qed.

Lemma get_production_model_metrics_eq self s :
  get_production_model_metrics self s =
  if next_fault s then (Returns None, tick s)
  else match latest_in_stage (versions_of s (model_name self)) Production with
       | None => (Returns None, tick s)
       | Some prod_version =>
           if next_fault (tick s) then (Returns None, tick (tick s))
           else (Returns (runs s !! run_id prod_version), tick (tick s))
       end.
Proof.
  unfold get_production_model_metrics, try_except, bind.
  rewrite get_latest_versions_eq.
  destruct (next_fault s); [reflexivity|].
  destruct (is_registered s (model_name self)) eqn:Hreg;
    [|by rewrite (versions_of_unregistered _ _ Hreg)].
  simpl.
  destruct (latest_in_stage _ _) as [pv|]; [|reflexivity].
  rewrite get_run_eq.
  destruct (next_fault (tick s)); [reflexivity|]. simpl.
  destruct (runs s !! run_id pv); reflexivity.
Qed.

Lemma get_production_model_metrics_returns self s :
  exists r s', get_production_model_metrics self s = (Returns r, s').
Proof.
  rewrite get_production_model_metrics_eq.
  destruct (next_fault s); [eauto|].
  destruct (latest_in_stage _ _); [|eauto].
  destruct (next_fault (tick s)); eauto.
Qed.

(** Once both fetches are known, [compare_models] answers what the policy
    says. *)
Lemma compare_models_decides self s rid m hib cand s1 inc s2 :
  get_run rid s = (Returns cand, s1) ->
  get_production_model_metrics self s1 = (Returns inc, s2) ->
  fst (compare_models self rid m hib s) = Returns (compare_policy cand inc m hib).
Proof.
  intros Hrun Hinc.
  unfold compare_models, bind at 1. rewrite Hrun. unfold compare_policy.
  destruct (cand !! m) as [c|]; [|reflexivity].
  unfold bind. rewrite Hinc.
  destruct inc as [pm|]; [|reflexivity].
  destruct (pm !! m); reflexivity.
Qed.

(** C2.  [compare_models], once the candidate's run has been fetched,
    decides in the order of the policy: false when the candidate lacks the
    metric; otherwise true when no incumbent metrics are available;
    otherwise true when the incumbent lacks the metric; otherwise the
    strict inequality in the chosen direction, so that equal values give
    false.  The result is [compare_policy] at the candidate's metrics and
    at what [get_production_model_metrics] returns. *)
Theorem compare_models_policy self s rid m hib cand s1 :
  get_run rid s = (Returns cand, s1) ->
  exists inc s2,
    get_production_model_metrics self s1 = (Returns inc, s2) /\
    let r := fst (compare_models self rid m hib s) in
    r = Returns (compare_policy cand inc m hib) /\
    (cand !! m = None -> r = Returns false) /\
    (forall c, cand !! m = Some c -> inc = None -> r = Returns true) /\
    (forall c pm, cand !! m = Some c -> inc = Some pm -> pm !! m = None ->
       r = Returns true) /\
    (forall c pm p, cand !! m = Some c -> inc = Some pm -> pm !! m = Some p ->
       r = Returns (if hib then (p <? c)%float else (c <? p)%float) /\
       ((c =? p)%float = true -> r = Returns false)).
Proof.
  intros Hrun.
  destruct (get_production_model_metrics_returns self s1) as (inc & s2 & Hinc).
  exists inc, s2. split; [exact Hinc|].
  cbv zeta. rewrite (compare_models_decides _ _ _ m hib _ _ _ _ Hrun Hinc).
  unfold compare_policy.
  split; [reflexivity|]. split; [|split; [|split]].
  - intros ->. reflexivity.
  - intros c -> ->. reflexivity.
  - intros c pm -> -> ->. reflexivity.
  - intros c pm p -> -> ->. split; [reflexivity|]. intros Htie.
    destruct (float_tie _ _ Htie) as [-> ->]. destruct hib; reflexivity.
Qed.

Lemma compare_models_policy_witness :
  get_run "run-2" (Examples.incumbent_store [])
    = (Returns (Examples.auc 0.75), tick (Examples.incumbent_store [])) /\
  fst (compare_models Examples.registry "run-2" "auc" true (Examples.incumbent_store []))
    = Returns false.
Proof.
  split; [reflexivity|].
  destruct (compare_models_policy Examples.registry (Examples.incumbent_store [])
              "run-2" "auc" true (Examples.auc 0.75)
              (tick (Examples.incumbent_store [])) eq_refl)
    as (inc & s2 & Hinc & Hr & _).
  cbv zeta in Hr. rewrite Hr.
  vm_compute in Hinc. injection Hinc as <- _. reflexivity.
Defined.

(** ** Stage queries *)

Lemma latest_in_stage_None vs st :
  latest_in_stage vs st = None <-> (forall mv, mv ∈ vs -> current_stage mv <> st).
Proof.
  induction vs as [|x vs IH]; simpl.
  - split; [|done]. intros _ mv Hin. by apply elem_of_nil in Hin.
  - destruct (decide (current_stage x = st)) as [Hx|Hx].
    + split.
      * destruct (latest_in_stage vs st); [destruct (_ <? _)%N|]; discriminate.
      * intros H. exfalso. apply (H x); [apply elem_of_cons; by left|done].
    + rewrite IH. split.
      * intros H mv Hin. apply elem_of_cons in Hin as [Heq|Hin]; [by subst|auto].
      * intros H mv Hin. apply H. apply elem_of_cons. by right.
Qed.

Lemma latest_in_stage_Some vs st mv :
  latest_in_stage vs st = Some mv ->
  mv ∈ vs /\ current_stage mv = st /\
  (forall mv', mv' ∈ vs -> current_stage mv' = st -> (version mv' <= version mv)%N).
Proof.
  revert mv. induction vs as [|x vs IH]; simpl; intros mv H; [discriminate|].
  destruct (decide (current_stage x = st)) as [Hx|Hx].
  - destruct (latest_in_stage vs st) as [o|] eqn:Ho.
    + destruct (IH o eq_refl) as (Hin & Hst & Hmax).
      destruct (version x <? version o)%N eqn:Hlt; injection H as <-.
      * apply N.ltb_lt in Hlt. repeat split; [apply elem_of_cons; auto|done|].
        intros mv' Hin' Hs. apply elem_of_cons in Hin' as [Heq|Hin'].
        -- subst mv'. lia.
        -- auto.
      * apply N.ltb_ge in Hlt. repeat split; [apply elem_of_cons; auto|done|].
        intros mv' Hin' Hs. apply elem_of_cons in Hin' as [Heq|Hin'].
        -- subst mv'. lia.
        -- specialize (Hmax mv' Hin' Hs). lia.
    + injection H as <-. repeat split; [apply elem_of_cons; auto|done|].
      intros mv' Hin' Hs. apply elem_of_cons in Hin' as [Heq|Hin'].
      * subst mv'. lia.
      * exfalso. exact (proj1 (latest_in_stage_None vs st) Ho mv' Hin' Hs).
  - destruct (IH mv H) as (Hin & Hst & Hmax). repeat split; [apply elem_of_cons; auto|done|].
    intros mv' Hin' Hs. apply elem_of_cons in Hin' as [Heq|Hin'].
    + subst mv'. done.
    + auto.
Qed.

(** ** Incumbent metrics *)

(** C4, as stated, fails: version 1 is in Production and the first client
    call raises, yet [get_production_model_metrics] returns [None] without
    raising; and when the production lookup raises inside [compare_models],
    a candidate with a worse score (0.75 against 0.80) is judged better,
    although it is judged worse when the store answers. *)
Lemma get_production_model_metrics_error_reported_absent :
  latest_in_stage
    (versions_of (Examples.incumbent_store [true]) "noshow-prediction-model")
    Production = Some (mkModelVersion 1 Production "run-1") /\
  fst (get_production_model_metrics Examples.registry (Examples.incumbent_store [true]))
    = Returns None /\
  fst (compare_models Examples.registry "run-2" "auc" true
         (Examples.incumbent_store [false; true])) = Returns true /\
  fst (compare_models Examples.registry "run-2" "auc" true
         (Examples.incumbent_store [])) = Returns false.
Proof. repeat split; vm_compute; reflexivity. Qed.

(** C4, amended.  [get_production_model_metrics] never raises and never
    changes the registry.  A mapping it returns is the one logged by the
    run of the newest version in stage Production.  It returns [None] in
    exactly four cases: the stage lookup raised, no version is in
    Production, the run lookup raised, or the run is unknown to the store.
    When the lookup raises inside [compare_models], a candidate that has
    the metric is judged better. *)
Theorem get_production_model_metrics_absent_cases self s :
  exists r s',
    get_production_model_metrics self s = (Returns r, s') /\
    models s' = models s /\ runs s' = runs s /\
    (forall pm, r = Some pm ->
       exists mv, mv ∈ versions_of s (model_name self) /\
                  current_stage mv = Production /\
                  (forall mv', mv' ∈ versions_of s (model_name self) ->
                     current_stage mv' = Production ->
                     (version mv' <= version mv)%N) /\
                  runs s !! run_id mv = Some pm) /\
    (r = None <->
       next_fault s = true \/
       (forall mv, mv ∈ versions_of s (model_name self) ->
                   current_stage mv <> Production) \/
       next_fault (tick s) = true \/
       (exists mv, latest_in_stage (versions_of s (model_name self)) Production
                     = Some mv /\ runs s !! run_id mv = None)) /\
    (forall rid m hib cand c s0,
       get_run rid s0 = (Returns cand, s) -> cand !! m = Some c ->
       next_fault s = true ->
       fst (compare_models self rid m hib s0) = Returns true).
Proof.
  rewrite get_production_model_metrics_eq.
  assert (Hcmp : forall rid m hib cand c s0,
             get_run rid s0 = (Returns cand, s) -> cand !! m = Some c ->
             next_fault s = true ->
             fst (compare_models self rid m hib s0) = Returns true).
  { intros rid m hib cand c s0 Hrun Hc Hf.
    unfold compare_models, bind. rewrite Hrun, Hc.
    rewrite get_production_model_metrics_eq, Hf. reflexivity. }
  destruct (next_fault s) eqn:Hf1.
  { eexists _, _. split; [reflexivity|]. repeat split; auto; discriminate. }
  destruct (latest_in_stage _ _) as [pv|] eqn:Hlatest.
  - destruct (latest_in_stage_Some _ _ _ Hlatest) as (Hin & Hst & Hmax).
    destruct (next_fault (tick s)) eqn:Hf2.
    { eexists _, _. split; [reflexivity|]. repeat split; auto; discriminate. }
    eexists _, _. split; [reflexivity|]. repeat split; auto.
    + intros pm Hpm. exists pv. auto.
    + intros Hnone. right. right. right. exists pv. auto.
    + intros [?|[Hno|[?|(mv & [= <-] & Hr)]]]; try discriminate; [|done].
      exfalso. exact (Hno pv Hin Hst).
  - eexists _, _. split; [reflexivity|]. repeat split; auto; try discriminate.
    intros _. right. left. by apply latest_in_stage_None.
Qed.

(** ** The serving cache *)

Lemma max_by_version_acc vs acc :
  let step := fun best mv =>
    match best with
    | None => Some mv
    | Some b => if (version b <? version mv)%N then Some mv else Some b
    end in
  match foldl step acc vs with
  | Some r =>
      (Some r = acc \/ r ∈ vs) /\
      (forall mv, mv ∈ vs -> (version mv <= version r)%N) /\
      (forall a, acc = Some a -> (version a <= version r)%N)
  | None => acc = None /\ vs = []
  end.
Proof.
  cbv zeta. revert acc. induction vs as [|x vs IH]; intros acc; simpl.
  - destruct acc as [a|]; [|done].
    split; [by left|]. split; [set_solver|]. intros ? [= <-]. lia.
  - match goal with |- context [foldl ?f ?a vs] => specialize (IH a) end.
    destruct (foldl _ _ vs) as [r|].
    + destruct IH as (Hr & Hmax & Hacc). destruct acc as [a|].
      * destruct (version a <? version x)%N eqn:Hlt.
        -- apply N.ltb_lt in Hlt. specialize (Hacc x eq_refl).
           split; [destruct Hr as [[= ->]|?]; right; set_solver|].
           split; [|intros ? [= <-]; lia].
           intros mv Hin. apply elem_of_cons in Hin as [->|Hin]; auto.
        -- apply N.ltb_ge in Hlt. specialize (Hacc a eq_refl).
           split; [destruct Hr as [?|?]; [by left|right; set_solver]|].
           split; [|intros ? [= <-]; lia].
           intros mv Hin. apply elem_of_cons in Hin as [->|Hin]; [lia|auto].
      * specialize (Hacc x eq_refl).
        split; [destruct Hr as [[= ->]|?]; right; set_solver|].
        split; [|done].
        intros mv Hin. apply elem_of_cons in Hin as [->|Hin]; auto.
    + destruct IH as [Hnone _]. destruct acc as [a|]; [|done].
      destruct (_ <? _)%N; done.
Qed.

(** Python's [max] returns an element of the sequence whose key is
    largest, and fails only on the empty sequence. *)
Lemma max_by_version_Some vs latest :
  Serving.max_by_version vs = Some latest ->
  latest ∈ vs /\ (forall mv, mv ∈ vs -> (version mv <= version latest)%N).
Proof.
  intros H. pose proof (max_by_version_acc vs None) as Hacc. cbv zeta in Hacc.
  unfold Serving.max_by_version in H. rewrite H in Hacc.
  destruct Hacc as ([?|?] & ? & _); [done|auto].
Qed.

Lemma max_by_version_None vs : Serving.max_by_version vs = None <-> vs = [].
Proof.
  split; [|by intros ->].
  intros H. pose proof (max_by_version_acc vs None) as Hacc. cbv zeta in Hacc.
  unfold Serving.max_by_version in H. rewrite H in Hacc. tauto.
Qed.

Lemma has_version_elem vs mv : mv ∈ vs -> has_version vs (version mv) = true.
Proof.
  intros Hin. unfold has_version. apply existsb_exists.
  exists mv. split; [by apply list_elem_of_In|apply N.eqb_refl].
Qed.

Lemma load_model_eq uri s :
  Serving.load_model uri s =
  if next_fault s then (Raises MlflowException, tick s)
  else match uri with
       | Serving.VersionUri name v =>
           if has_version (versions_of s name) v
           then (Returns (Serving.mkPredictor name v), tick s)
           else (Raises MlflowException, tick s)
       | Serving.StageUri name st =>
           match latest_in_stage (versions_of s name) st with
           | Some mv => (Returns (Serving.mkPredictor name (version mv)), tick s)
           | None => (Raises MlflowException, tick s)
           end
       end.
Proof.
  unfold Serving.load_model, call, read_store, ret, raise, bind.
  destruct (next_fault s); [reflexivity|]. simpl.
  destruct uri as [name v|name st]; rewrite versions_of_tick.
  - destruct (has_version _ _); reflexivity.
  - destruct (latest_in_stage _ _); reflexivity.
Qed.

Lemma is_registered_nonempty s name :
  versions_of s name <> [] -> is_registered s name = true.
Proof.
  intros Hne. destruct (is_registered s name) eqn:Hreg; [reflexivity|].
  by rewrite (versions_of_unregistered _ _ Hreg) in Hne.
Qed.

Lemma registered_no_versions s name :
  models s !! name = Some [] <-> is_registered s name = true /\ versions_of s name = [].
Proof.
  unfold is_registered, versions_of. destruct (models s !! name) as [vs|]; simpl.
  - split; [by intros [= ->]|by intros [_ ->]].
  - split; [discriminate|by intros [? _]].
Qed.

Lemma unregistered_lookup s name :
  models s !! name = None <-> is_registered s name = false.
Proof. unfold is_registered. destruct (models s !! name); split; congruence. Qed.

(** [load_production_model], call by call.  With [vs] the versions of the
    configured name: a raising call gives the fallback state, and the first
    call raises when the name is not registered; otherwise the newest
    Production version is loaded; without one, the highest-numbered
    version; without any version, only [model_info] is reassigned. *)
Lemma load_production_model_eq MODEL_NAME versions_as g s :
  let vs := versions_of s MODEL_NAME in
  Serving.load_production_model MODEL_NAME versions_as g s =
  if next_fault s then (Returns fallback_globals, tick s)
  else if is_registered s MODEL_NAME then
    match latest_in_stage vs Production with
    | Some prod_model =>
        if next_fault (tick s) then (Returns fallback_globals, tick (tick s))
        else (Returns (loaded_globals MODEL_NAME versions_as (version prod_model)
                         "Production"),
              tick (tick s))
    | None =>
        if next_fault (tick s) then (Returns fallback_globals, tick (tick s))
        else
          match Serving.max_by_version vs with
          | Some latest =>
              if next_fault (tick (tick s))
              then (Returns fallback_globals, tick (tick (tick s)))
              else (Returns (loaded_globals MODEL_NAME versions_as (version latest)
                               "None"),
                    tick (tick (tick s)))
          | None => (Returns (no_model_globals g), tick (tick s))
          end
    end
  else (Returns fallback_globals, tick s).
Proof.
  cbv zeta.
  unfold Serving.load_production_model, Serving.load_production_model_try,
    try_except, bind.
  rewrite get_latest_versions_eq.
  destruct (next_fault s); [reflexivity|].
  destruct (is_registered s MODEL_NAME); [|reflexivity]. simpl.
  destruct (latest_in_stage _ _) as [pm|] eqn:Hlatest.
  - rewrite load_model_eq, versions_of_tick, Hlatest.
    destruct (next_fault (tick s)); reflexivity.
  - rewrite search_model_versions_eq, versions_of_tick.
    destruct (next_fault (tick s)); [reflexivity|].
    destruct (Serving.max_by_version _) as [latest|] eqn:Hmax; [|reflexivity].
    rewrite load_model_eq, !versions_of_tick.
    destruct (next_fault (tick (tick s))); [reflexivity|].
    destruct (max_by_version_Some _ _ Hmax) as [Hin _].
    rewrite (has_version_elem _ _ Hin). reflexivity.
Qed.

Lemma fault_free_next s : fault_free s -> next_fault s = false /\ fault_free (tick s).
Proof.
  unfold fault_free, next_fault, tick. destruct (faults s) as [|[] fs]; simpl; auto.
  discriminate.
Qed.

Lemma info_lookup_name name v stage :
  Serving.info name v stage !! "name" = Some (Serving.PyStr name).
Proof. reflexivity. Qed.

Lemma info_lookup_version name v stage : Serving.info name v stage !! "version" = Some v.
Proof. reflexivity. Qed.

Lemma info_lookup_stage name v stage :
  Serving.info name v stage !! "stage" = Some (Serving.PyStr stage).
Proof. reflexivity. Qed.

(** What the response model makes of a version number of the client. *)
Lemma validate_raw_version versions_as validation v :
  Serving.validate_str validation (Serving.raw_version versions_as v)
  = if version_accepted versions_as validation
    then Returns (pretty v)
    else Raises ValidationError.
Proof. destruct versions_as, validation; reflexivity. Qed.


Lemma respond_no_model validation score now request g :
  Serving.respond validation score now request (no_model_globals g)
  = match Serving.model g with
    | None =>
        Returns {| Serving.probability := 0.5; Serving.is_no_show := false;
                   Serving.model_name := "none"; Serving.model_version := "0";
                   Serving.prediction_timestamp := now |}
    | Some m =>
        match score m request with
        | Returns proba =>
            Returns {| Serving.probability := proba;
                       Serving.is_no_show := (0.5 <? proba)%float;
                       Serving.model_name := "none"; Serving.model_version := "0";
                       Serving.prediction_timestamp := now |}
        | Raises _ => Raises (HTTPException 500)
        end
    end.
Proof.
  unfold Serving.respond. simpl.
  destruct (Serving.model g) as [m|]; [|reflexivity].
  destruct (score m request); reflexivity.
Qed.

Lemma respond_loaded MODEL_NAME versions_as validation score now request v stage :
  Serving.respond validation score now request
    (loaded_globals MODEL_NAME versions_as v stage)
  = match score (Serving.mkPredictor MODEL_NAME v) request with
    | Returns proba =>
        if version_accepted versions_as validation
        then Returns {| Serving.probability := proba;
                        Serving.is_no_show := (0.5 <? proba)%float;
                        Serving.model_name := MODEL_NAME;
                        Serving.model_version := pretty v;
                        Serving.prediction_timestamp := now |}
        else Raises (HTTPException 500)
    | Raises _ => Raises (HTTPException 500)
    end.
Proof.
  unfold Serving.respond, loaded_globals. simpl.
  destruct (score _ request) as [proba|e]; [|reflexivity].
  destruct versions_as, validation; reflexivity.
Qed.

(** C7.  Against a store that answers, [load_production_model] resolves
    the newest version in stage Production of the configured name; when no
    version is in Production, the highest-numbered version whatever its
    stage; and it reports the identity "none"/"0" exactly when the name is
    registered without any version.  A name that was never registered
    makes the first call raise, which gives the fallback state. *)
Theorem load_production_model_resolves MODEL_NAME versions_as g s :
  fault_free s ->
  let vs := versions_of s MODEL_NAME in
  exists g' s',
    Serving.load_production_model MODEL_NAME versions_as g s = (Returns g', s') /\
    ((exists mv, mv ∈ vs /\ current_stage mv = Production) ->
     exists d, d ∈ vs /\ current_stage d = Production /\
       (forall mv, mv ∈ vs -> current_stage mv = Production ->
                   (version mv <= version d)%N) /\
       Serving.model g' = Some (Serving.mkPredictor MODEL_NAME (version d)) /\
       Serving.model_info g'
         = Serving.info MODEL_NAME (Serving.raw_version versions_as (version d))
             "Production") /\
    ((forall mv, mv ∈ vs -> current_stage mv <> Production) -> vs <> [] ->
     exists latest, latest ∈ vs /\
       (forall mv, mv ∈ vs -> (version mv <= version latest)%N) /\
       Serving.model g' = Some (Serving.mkPredictor MODEL_NAME (version latest)) /\
       Serving.model_info g'
         = Serving.info MODEL_NAME (Serving.raw_version versions_as (version latest))
             "None") /\
    (Serving.model_info g' = Serving.info "none" (Serving.PyStr "0") "none"
     <-> models s !! MODEL_NAME = Some []) /\
    (models s !! MODEL_NAME = None -> g' = fallback_globals).
Proof.
  intros Hff vs.
  destruct (fault_free_next _ Hff) as [Hf1 Hff1].
  destruct (fault_free_next _ Hff1) as [Hf2 Hff2].
  destruct (fault_free_next _ Hff2) as [Hf3 _].
  pose proof (load_production_model_eq MODEL_NAME versions_as g s) as Heq.
  cbv zeta in Heq. fold vs in Heq. rewrite Hf1, Hf2, Hf3 in Heq.
  setoid_rewrite registered_no_versions. setoid_rewrite unregistered_lookup.
  fold vs.
  destruct (is_registered s MODEL_NAME) eqn:Hreg.
  - destruct (latest_in_stage vs Production) as [pm|] eqn:Hlatest.
    + destruct (latest_in_stage_Some _ _ _ Hlatest) as (Hin & Hst & Hmax).
      eexists _, _. split; [exact Heq|]. simpl. split; [|split; [|split; [split|]]].
      * intros _. exists pm. auto.
      * intros Hno. exfalso. exact (Hno pm Hin Hst).
      * intros Hinfo. apply (f_equal (fun d => d !! "stage")) in Hinfo.
        rewrite !info_lookup_stage in Hinfo. discriminate.
      * intros [_ Hnil]. rewrite Hnil in Hin. by apply elem_of_nil in Hin.
      * discriminate.
    + pose proof (proj1 (latest_in_stage_None _ _) Hlatest) as Hno.
      destruct (Serving.max_by_version vs) as [latest|] eqn:Hmax.
      * destruct (max_by_version_Some _ _ Hmax) as [Hin Hle].
        eexists _, _. split; [exact Heq|]. simpl. split; [|split; [|split; [split|]]].
        -- intros (mv & Hmv & Hst). exfalso. exact (Hno mv Hmv Hst).
        -- intros _ _. exists latest. auto.
        -- intros Hinfo. apply (f_equal (fun d => d !! "stage")) in Hinfo.
           rewrite !info_lookup_stage in Hinfo. discriminate.
        -- intros [_ Hnil]. rewrite Hnil in Hin. by apply elem_of_nil in Hin.
        -- discriminate.
      * apply max_by_version_None in Hmax.
        eexists _, _. split; [exact Heq|]. simpl. split; [|split; [|split; [split|]]].
        -- intros (mv & Hmv & Hst). exfalso. exact (Hno mv Hmv Hst).
        -- intros _ Hne. done.
        -- done.
        -- done.
        -- discriminate.
  - pose proof (versions_of_unregistered _ _ Hreg) as Hnil. fold vs in Hnil.
    eexists _, _. split; [exact Heq|]. split; [|split; [|split; [split|]]].
    + intros (mv & Hmv & _). rewrite Hnil in Hmv. by apply elem_of_nil in Hmv.
    + intros _ Hne. done.
    + intros Hinfo. apply (f_equal (fun d => d !! "stage")) in Hinfo.
      rewrite !info_lookup_stage in Hinfo. discriminate.
    + intros [? _]. discriminate.
    + reflexivity.
Qed.

Lemma load_production_model_resolves_witness :
  fault_free (Examples.three_versions []) /\
  exists g' s',
    Serving.load_production_model "noshow-prediction-model" Serving.IntVersion
      Serving.initial_globals (Examples.three_versions []) = (Returns g', s') /\
    Serving.model_info g'
      = Serving.info "noshow-prediction-model" (Serving.PyInt 2) "Production".
Proof.
  split; [reflexivity|].
  destruct (load_production_model_resolves "noshow-prediction-model"
              Serving.IntVersion Serving.initial_globals
              (Examples.three_versions []) eq_refl)
    as (g' & s' & Heq & _).
  exists g', s'. split; [exact Heq|].
  vm_compute in Heq. injection Heq as <- _. reflexivity.
Defined.





(** C10, as stated, fails on a registry that holds nothing at all: the
    configured name was never registered, so the first registry call of
    the reload raises; the reload then discards the predictor of version 1
    that the process held and reports "fallback"/"0.0.0", and the
    prediction is the neutral default. *)
Lemma load_production_model_unregistered_discards_predictor :
  models Examples.empty_store = ∅ /\
  Serving.model (Examples.serving_v1 Serving.IntVersion)
    = Some (Serving.mkPredictor "noshow-prediction-model" 1) /\
  Serving.load_production_model "noshow-prediction-model" Serving.IntVersion
    (Examples.serving_v1 Serving.IntVersion) Examples.empty_store
    = (Returns fallback_globals, tick Examples.empty_store) /\
  Serving.model fallback_globals = None /\
  Serving.predict "noshow-prediction-model" Serving.IntVersion Serving.Pydantic2
    Examples.constant_score "2024-01-01T00:00:00" Examples.request
    (Examples.serving_v1 Serving.IntVersion) Examples.empty_store
  = (Returns (fallback_globals,
              Returns {| Serving.probability := 0.5;
                         Serving.is_no_show := false;
                         Serving.model_name := "fallback";
                         Serving.model_version := "0.0.0";
                         Serving.prediction_timestamp := "2024-01-01T00:00:00" |}),
     tick Examples.empty_store).
Proof. repeat split; reflexivity. Qed.

(** C10, amended.  When the configured name is registered without any
    version and the two registry calls go through,
    [load_production_model] leaves [model] as it was and overwrites
    [model_info] with name "none", version "0".  A predictor loaded earlier
    therefore keeps answering: the next response carries the probability
    that predictor computes under the identity "none"/"0", which is not the
    version the predictor was loaded from.  When the name was never
    registered, the reload gives the fallback state instead and the
    predictor is gone. *)
Theorem load_production_model_empty_registry_keeps_model
    MODEL_NAME versions_as validation score now request g s :
  next_fault s = false ->
  next_fault (tick s) = false ->
  (models s !! MODEL_NAME = Some [] ->
   let g' := {| Serving.model := Serving.model g;
                Serving.model_info :=
                  Serving.info "none" (Serving.PyStr "0") "none" |} in
   Serving.load_production_model MODEL_NAME versions_as g s
     = (Returns g', tick (tick s)) /\
   (forall m proba,
      Serving.model g = Some m -> score m request = Returns proba ->
      Serving.predict MODEL_NAME versions_as validation score now request g s
      = (Returns (g', Returns {| Serving.probability := proba;
                                 Serving.is_no_show := (0.5 <? proba)%float;
                                 Serving.model_name := "none";
                                 Serving.model_version := "0";
                                 Serving.prediction_timestamp := now |}),
         tick (tick s)) /\
      (Serving.loaded_version m <> 0%N ->
       pretty (Serving.loaded_version m) <> "0"))) /\
  (models s !! MODEL_NAME = None ->
   Serving.load_production_model MODEL_NAME versions_as g s
     = (Returns fallback_globals, tick s)).
Proof.
  intros Hf1 Hf2.
  pose proof (load_production_model_eq MODEL_NAME versions_as g s) as Heq.
  cbv zeta in Heq. rewrite Hf1, Hf2 in Heq. split.
  - intros [Hreg Hvs]%registered_no_versions. cbv zeta.
    rewrite Hreg, Hvs in Heq.
    cbn [latest_in_stage Serving.max_by_version foldl] in Heq.
    split; [exact Heq|].
    intros m proba Hm Hscore. split.
    + unfold Serving.predict, bind. rewrite Heq. unfold ret.
      rewrite respond_no_model. unfold no_model_globals.
      rewrite Hm, Hscore. reflexivity.
    + intros Hne Hpretty. apply Hne. apply (inj pretty). exact Hpretty.
  - intros Hreg%unregistered_lookup. rewrite Hreg in Heq. exact Heq.
Qed.

Lemma load_production_model_empty_registry_keeps_model_witness :
  models Examples.no_versions_store !! "noshow-prediction-model" = Some [] /\
  Serving.predict "noshow-prediction-model" Serving.IntVersion Serving.Pydantic2
    Examples.constant_score "2024-01-01T00:00:00" Examples.request
    (Examples.serving_v1 Serving.IntVersion) Examples.no_versions_store
  = (Returns ({| Serving.model := Some (Serving.mkPredictor "noshow-prediction-model" 1);
                 Serving.model_info :=
                   Serving.info "none" (Serving.PyStr "0") "none" |},
              Returns {| Serving.probability := 0.75;
                         Serving.is_no_show := true;
                         Serving.model_name := "none";
                         Serving.model_version := "0";
                         Serving.prediction_timestamp := "2024-01-01T00:00:00" |}),
     tick (tick Examples.no_versions_store)).
Proof.
  assert (Hreg : models Examples.no_versions_store !! "noshow-prediction-model"
                 = Some []) by reflexivity.
  split; [exact Hreg|].
  destruct (load_production_model_empty_registry_keeps_model
              "noshow-prediction-model" Serving.IntVersion Serving.Pydantic2
              Examples.constant_score "2024-01-01T00:00:00" Examples.request
              (Examples.serving_v1 Serving.IntVersion)
              Examples.no_versions_store eq_refl eq_refl) as [Hkeep _].
  destruct (Hkeep Hreg) as [_ Hpredict].
  destruct (Hpredict (Serving.mkPredictor "noshow-prediction-model" 1) 0.75%float
              eq_refl eq_refl) as [Heq _].
  exact Heq.
Defined.

(** The three shapes of state a reload can leave. *)
Lemma load_production_model_cases MODEL_NAME versions_as g s :
  exists g' s',
    Serving.load_production_model MODEL_NAME versions_as g s = (Returns g', s') /\
    (g' = fallback_globals \/
     (exists v stage, g' = loaded_globals MODEL_NAME versions_as v stage) \/
     g' = no_model_globals g).
Proof.
  pose proof (load_production_model_eq MODEL_NAME versions_as g s) as Heq.
  cbv zeta in Heq.
  destruct (next_fault s); [eauto 6|].
  destruct (is_registered s MODEL_NAME); [|eauto 6].
  destruct (latest_in_stage _ _) as [pm|].
  - destruct (next_fault (tick s)); eauto 8.
  - destruct (next_fault (tick s)); [eauto 6|].
    destruct (Serving.max_by_version _) as [latest|]; [|eauto 8].
    destruct (next_fault (tick (tick s))); eauto 8.
Qed.






(** ** Stage transitions on a version list *)

Lemma versions_of_set_versions s name vs name' :
  versions_of (set_versions s name vs) name'
  = if decide (name = name') then vs else versions_of s name'.
Proof.
  unfold versions_of, set_versions. simpl.
  destruct (decide (name = name')) as [->|Hne].
  - by rewrite lookup_insert_eq.
  - by rewrite lookup_insert_ne.
Qed.

Lemma version_set_stage v st mv : version (set_stage v st mv) = version mv.
Proof. unfold set_stage. destruct (decide _); reflexivity. Qed.

Lemma versions_set_stage v st (vs : list ModelVersion) :
  version <$> (set_stage v st <$> vs) = version <$> vs.
Proof.
  rewrite <- list_fmap_compose. apply list_fmap_ext.
  intros i mv _. apply version_set_stage.
Qed.

Lemma has_version_set_stage v st (vs : list ModelVersion) w :
  has_version (set_stage v st <$> vs) w = has_version vs w.
Proof.
  unfold has_version. induction vs as [|x vs IH]; [reflexivity|].
  rewrite fmap_cons. cbn [existsb]. rewrite version_set_stage, IH. reflexivity.
Qed.

Lemma has_version_true vs v :
  has_version vs v = true <-> exists mv, mv ∈ vs /\ version mv = v.
Proof.
  unfold has_version. rewrite existsb_exists. split.
  - intros (mv & Hin & Heq). exists mv. split; [by apply list_elem_of_In|].
    by apply N.eqb_eq.
  - intros (mv & Hin & Heq). exists mv. split; [by apply list_elem_of_In|].
    by apply N.eqb_eq.
Qed.

Lemma stage_of_set_stage vs v w st :
  stage_of (set_stage w st <$> vs) v
  = if decide (v = w) then (fun _ => st) <$> stage_of vs v else stage_of vs v.
Proof.
  unfold stage_of. induction vs as [|x vs IH].
  - simpl. destruct (decide (v = w)); reflexivity.
  - rewrite fmap_cons. cbn [List.find]. rewrite version_set_stage.
    destruct (version x =? v)%N eqn:Hx.
    + apply N.eqb_eq in Hx. unfold set_stage.
      destruct (decide (v = w)) as [->|Hne]; simpl.
      * rewrite decide_True by done. reflexivity.
      * rewrite decide_False by congruence. reflexivity.
    + exact IH.
Qed.

Lemma stage_of_elem vs mv :
  mv ∈ vs -> is_Some (stage_of vs (version mv)).
Proof.
  unfold stage_of. induction vs as [|x vs IH]; [set_solver|].
  intros Hin. simpl. destruct (version x =? version mv)%N eqn:Hx; [by eexists|].
  apply elem_of_cons in Hin as [->|Hin]; [|auto].
  rewrite N.eqb_refl in Hx. discriminate.
Qed.

Lemma next_version_fresh vs mv : mv ∈ vs -> (version mv < next_version vs)%N.
Proof.
  unfold next_version. induction vs as [|x vs IH]; [set_solver|].
  intros Hin. simpl. apply elem_of_cons in Hin as [->|Hin]; [lia|].
  specialize (IH Hin). lia.
Qed.

Lemma stage_of_fresh vs v : (forall mv, mv ∈ vs -> version mv <> v) -> stage_of vs v = None.
Proof.
  unfold stage_of. induction vs as [|x vs IH]; [reflexivity|].
  intros Hfresh. simpl. destruct (version x =? v)%N eqn:Hx.
  - apply N.eqb_eq in Hx. exfalso. apply (Hfresh x); [set_solver|done].
  - apply IH. intros mv Hin. apply Hfresh. set_solver.
Qed.

Lemma stage_of_app vs ws v :
  stage_of (vs ++ ws) v
  = match stage_of vs v with Some st => Some st | None => stage_of ws v end.
Proof.
  unfold stage_of. induction vs as [|x vs IH]; simpl; [reflexivity|].
  destruct (version x =? v)%N; [reflexivity|exact IH].
Qed.

Lemma deployed_nil vs :
  deployed vs = [] <-> (forall mv, mv ∈ vs -> current_stage mv <> Production).
Proof.
  unfold deployed. split.
  - intros Hnil mv Hin Hst.
    assert (mv ∈ filter (fun mv => current_stage mv = Production) vs) as Hf
      by (apply list_elem_of_filter; done).
    rewrite Hnil in Hf. set_solver.
  - intros Hno. induction vs as [|x vs IH]; [reflexivity|].
    rewrite filter_cons. destruct (decide _) as [Hx|Hx].
    + exfalso. apply (Hno x); [set_solver|done].
    + apply IH. intros mv Hin. apply Hno. set_solver.
Qed.

(** With at most one deployed version, the one the client reports is the
    only one. *)
Lemma latest_is_only_deployed vs pv mv :
  at_most_one_deployed vs ->
  latest_in_stage vs Production = Some pv ->
  mv ∈ vs -> current_stage mv = Production -> mv = pv.
Proof.
  unfold at_most_one_deployed, deployed. intros Hone Hlatest Hin Hst.
  destruct (latest_in_stage_Some _ _ _ Hlatest) as (Hpin & Hpst & _).
  assert (mv ∈ filter (fun mv => current_stage mv = Production) vs) as Hm
    by (apply list_elem_of_filter; done).
  assert (pv ∈ filter (fun mv => current_stage mv = Production) vs) as Hp
    by (apply list_elem_of_filter; done).
  destruct (filter _ vs) as [|a [|b l]]; simpl in Hone; [set_solver| |lia].
  apply list_elem_of_singleton in Hm, Hp. congruence.
Qed.

Lemma archive_latest_none_deployed vs :
  at_most_one_deployed vs -> deployed (archive_latest vs) = [].
Proof.
  intros Hone. apply deployed_nil. unfold archive_latest.
  destruct (latest_in_stage vs Production) as [pv|] eqn:Hlatest.
  - intros mv' Hin'. apply list_elem_of_fmap in Hin' as (mv & -> & Hin).
    unfold set_stage. destruct (decide (version mv = version pv)) as [Hv|Hv]; simpl.
    + discriminate.
    + intros Hst. apply Hv. f_equal. eapply latest_is_only_deployed; eauto.
  - by apply latest_in_stage_None.
Qed.

Lemma one_version_deployed vs v :
  NoDup (version <$> vs) ->
  (forall mv, mv ∈ vs -> current_stage mv = Production -> version mv = v) ->
  at_most_one_deployed vs.
Proof.
  unfold at_most_one_deployed. induction vs as [|x vs IH]; simpl; [lia|].
  intros Hnd Hall. apply NoDup_cons in Hnd as [Hx Hnd].
  unfold deployed. rewrite filter_cons. destruct (decide _) as [Hst|Hst].
  - assert (deployed vs = []) as Hnil.
    { apply deployed_nil. intros mv Hin Hmv. apply Hx.
      apply list_elem_of_fmap. exists mv. split; [|done].
      rewrite (Hall x) by (set_solver || done).
      symmetry. apply Hall; [set_solver|done]. }
    unfold deployed in Hnil. rewrite Hnil. simpl. lia.
  - apply IH; [done|]. intros mv Hin. apply Hall. set_solver.
Qed.

Lemma promote_step_ok vs v :
  registry_ok vs -> registry_ok (set_stage v Production <$> archive_latest vs).
Proof.
  intros [Hnd Hone].
  assert (Hvers : version <$> archive_latest vs = version <$> vs).
  { unfold archive_latest. destruct (latest_in_stage _ _); [|done].
    apply versions_set_stage. }
  assert (Hnd' : NoDup (version <$> (set_stage v Production <$> archive_latest vs))).
  { rewrite versions_set_stage, Hvers. exact Hnd. }
  split; [exact Hnd'|].
  apply (one_version_deployed _ v Hnd').
  intros mv' Hin' Hst. apply list_elem_of_fmap in Hin' as (mv & -> & Hin).
  rewrite version_set_stage. unfold set_stage in Hst.
  destruct (decide (version mv = v)) as [Hv|Hv]; [done|].
  exfalso. pose proof (archive_latest_none_deployed vs Hone) as Hnil.
  exact (proj1 (deployed_nil _) Hnil mv Hin Hst).
Qed.

Lemma archive_step_ok vs : registry_ok vs -> registry_ok (archive_latest vs).
Proof.
  intros [Hnd Hone]. split.
  - unfold archive_latest. destruct (latest_in_stage _ _); [|done].
    by rewrite versions_set_stage.
  - unfold at_most_one_deployed.
    rewrite (archive_latest_none_deployed vs Hone). simpl. lia.
Qed.

Lemma register_step_ok vs rid :
  registry_ok vs ->
  registry_ok (vs ++ [mkModelVersion (next_version vs) StageNone rid]).
Proof.
  intros [Hnd Hone]. split.
  - rewrite fmap_app. simpl. apply NoDup_app. split; [done|]. split.
    + intros v Hin Hv. apply list_elem_of_singleton in Hv as ->.
      apply list_elem_of_fmap in Hin as (mv & Heq & Hin).
      pose proof (next_version_fresh _ _ Hin). lia.
    + apply NoDup_singleton.
  - unfold at_most_one_deployed, deployed in *. rewrite filter_app.
    rewrite filter_cons, decide_False by discriminate.
    rewrite filter_nil, app_nil_r. exact Hone.
Qed.

(** ** Promotion *)

Lemma versions_of_other s name vs name' :
  name' <> name -> versions_of (set_versions s name vs) name' = versions_of s name'.
Proof.
  intros Hne. rewrite versions_of_set_versions. by rewrite decide_False.
Qed.

Lemma versions_of_same s name vs : versions_of (set_versions s name vs) name = vs.
Proof. rewrite versions_of_set_versions. by rewrite decide_True. Qed.

(** [promote_to_production self v true] always returns.  When it answers
    [True], the version the client reported in Production was archived and
    then [v] was moved to Production; when it answers [False], the list is
    either untouched or only the archiving took place.  Other model names
    and the runs are never touched. *)
Lemma promote_to_production_cases self v s :
  let name := model_name self in
  let vs := versions_of s name in
  exists ok s',
    promote_to_production self v true s = (Returns ok, s') /\
    runs s' = runs s /\
    (forall name', name' <> name -> versions_of s' name' = versions_of s name') /\
    (if ok
     then has_version vs v = true /\
          versions_of s' name = set_stage v Production <$> archive_latest vs
     else versions_of s' name = vs \/ versions_of s' name = archive_latest vs).
Proof.
  cbv zeta. unfold promote_to_production, try_except, bind.
  rewrite get_latest_versions_eq.
  destruct (next_fault s) eqn:Hf1.
  { exists false, (tick s). repeat split; auto. }
  destruct (is_registered s (model_name self)) eqn:Hreg.
  2: { exists false, (tick s). repeat split; auto. }
  unfold archive_latest. cbn [omap list_omap].
  destruct (latest_in_stage (versions_of s (model_name self)) Production)
    as [pv|] eqn:Hlatest; cbn [for_each app].
  - destruct (latest_in_stage_Some _ _ _ Hlatest) as (Hin & _ & _).
    unfold bind. rewrite transition_model_version_stage_eq, versions_of_tick.
    destruct (next_fault (tick s)) eqn:Hf2.
    { exists false, (tick (tick s)). repeat split; auto. }
    rewrite (has_version_elem _ _ Hin). unfold ret.
    rewrite transition_model_version_stage_eq.
    match goal with |- context [next_fault ?s2] =>
      destruct (next_fault s2) eqn:Hf3 end.
    { eexists false, _. split; [reflexivity|]. split; [reflexivity|]. split.
      - intros name' Hne. rewrite versions_of_tick. by rewrite versions_of_other.
      - right. rewrite versions_of_tick. apply versions_of_same. }
    rewrite versions_of_same, has_version_set_stage.
    destruct (has_version (versions_of s (model_name self)) v) eqn:Hv.
    + eexists true, _. split; [reflexivity|]. split; [reflexivity|]. split.
      * intros name' Hne. rewrite versions_of_other by done.
        rewrite versions_of_tick. by rewrite versions_of_other.
      * split; [done|]. apply versions_of_same.
    + eexists false, _. split; [reflexivity|]. split; [reflexivity|]. split.
      * intros name' Hne. rewrite versions_of_tick. by rewrite versions_of_other.
      * right. rewrite versions_of_tick. apply versions_of_same.
  - unfold ret. rewrite transition_model_version_stage_eq, versions_of_tick.
    destruct (next_fault (tick s)) eqn:Hf2.
    { exists false, (tick (tick s)). repeat split; auto. }
    destruct (has_version (versions_of s (model_name self)) v) eqn:Hv.
    + eexists true, _. split; [reflexivity|]. split; [reflexivity|]. split.
      * intros name' Hne. by rewrite versions_of_other.
      * split; [done|]. apply versions_of_same.
    + exists false, (tick (tick s)). repeat split; auto.
Qed.

Lemma promote_without_archiving_eq self v s :
  promote_to_production self v false s =
  if next_fault s then (Returns false, tick s)
  else if has_version (versions_of s (model_name self)) v
       then (Returns true,
             set_versions (tick s) (model_name self)
               (set_stage v Production <$> versions_of s (model_name self)))
       else (Returns false, tick s).
Proof.
  unfold promote_to_production, try_except, bind, ret.
  rewrite transition_model_version_stage_eq.
  destruct (next_fault s); [reflexivity|].
  destruct (has_version _ _); reflexivity.
Qed.

Lemma promote_with_archiving_eq self v s :
  let name := model_name self in
  let vs := versions_of s name in
  promote_to_production self v true s =
  if next_fault s then (Returns false, tick s)
  else if negb (is_registered s name) then (Returns false, tick s)
  else if next_fault (tick s) then (Returns false, tick (tick s))
  else
    match latest_in_stage vs Production with
    | Some prod_version =>
        let archived := set_stage (version prod_version) Archived <$> vs in
        if next_fault (tick (tick s))
        then (Returns false, tick (set_versions (tick (tick s)) name archived))
        else if has_version vs v
        then (Returns true,
              set_versions (tick (set_versions (tick (tick s)) name archived)) name
                (set_stage v Production <$> archived))
        else (Returns false, tick (set_versions (tick (tick s)) name archived))
    | None =>
        if has_version vs v
        then (Returns true,
              set_versions (tick (tick s)) name (set_stage v Production <$> vs))
        else (Returns false, tick (tick s))
    end.
Proof.
  cbv zeta. unfold promote_to_production, try_except, bind.
  rewrite get_latest_versions_eq.
  destruct (next_fault s) eqn:Hf1; [reflexivity|].
  destruct (is_registered s (model_name self)); [|reflexivity].
  cbn [omap list_omap negb].
  destruct (latest_in_stage (versions_of s (model_name self)) Production)
    as [pv|] eqn:Hlatest; cbn [for_each app].
  - destruct (latest_in_stage_Some _ _ _ Hlatest) as (Hin & _ & _).
    unfold bind. rewrite transition_model_version_stage_eq, versions_of_tick.
    destruct (next_fault (tick s)) eqn:Hf2; [reflexivity|].
    rewrite (has_version_elem _ _ Hin). unfold ret.
    rewrite transition_model_version_stage_eq.
    change (next_fault (set_versions (tick (tick s)) (model_name self)
              (set_stage (version pv) Archived <$> versions_of s (model_name self))))
      with (next_fault (tick (tick s))).
    destruct (next_fault (tick (tick s))); [reflexivity|].
    rewrite versions_of_same, has_version_set_stage.
    destruct (has_version _ v); reflexivity.
  - unfold ret. rewrite transition_model_version_stage_eq, versions_of_tick.
    destruct (next_fault (tick s)); [reflexivity|].
    destruct (has_version _ v); reflexivity.
Qed.

Lemma register_model_eq self rid s :
  register_model self rid s =
  if next_fault s then (Raises MlflowException, tick s)
  else match runs s !! rid with
       | Some _ =>
           let vs := versions_of s (model_name self) in
           (Returns (next_version vs),
            set_versions (tick s) (model_name self)
              (vs ++ [mkModelVersion (next_version vs) StageNone rid]))
       | None => (Raises MlflowException, tick s)
       end.
Proof.
  unfold register_model, bind. rewrite mlflow_register_model_eq.
  destruct (next_fault s); [reflexivity|].
  destruct (runs s !! rid); reflexivity.
Qed.

Lemma after_call_ok s c :
  (forall name, registry_ok (versions_of s name)) ->
  forall name, registry_ok (versions_of (after_call s c) name).
Proof.
  intros Hok name. destruct c as [self rid|self v]; simpl.
  - rewrite register_model_eq. destruct (next_fault s); [apply Hok|].
    destruct (runs s !! rid); [|apply Hok].
    cbv zeta. simpl. rewrite versions_of_set_versions.
    destruct (decide (model_name self = name)) as [<-|Hne]; [|apply Hok].
    apply register_step_ok, Hok.
  - destruct (promote_to_production_cases self v s)
      as (ok & s' & Heq & _ & Hother & Hsame).
    rewrite Heq. simpl.
    destruct (decide (name = model_name self)) as [->|Hne].
    + destruct ok.
      * destruct Hsame as [_ ->]. apply promote_step_ok, Hok.
      * destruct Hsame as [-> | ->]; [apply Hok|apply archive_step_ok, Hok].
    + rewrite Hother by done. apply Hok.
Qed.

Lemma after_calls_ok calls s :
  (forall name, registry_ok (versions_of s name)) ->
  forall name, registry_ok (versions_of (after_calls s calls) name).
Proof.
  unfold after_calls. revert s. induction calls as [|c calls IH]; intros s Hok.
  - exact Hok.
  - simpl. apply IH. by apply after_call_ok.
Qed.

Lemma has_version_stage_of vs v : has_version vs v = true -> is_Some (stage_of vs v).
Proof.
  intros (mv & Hin & <-)%has_version_true. by apply stage_of_elem.
Qed.

Lemma has_version_archive_latest vs v :
  has_version (archive_latest vs) v = has_version vs v.
Proof.
  unfold archive_latest. destruct (latest_in_stage _ _); [|reflexivity].
  apply has_version_set_stage.
Qed.

(** C1, as stated, fails on the version that is already deployed: version 1
    is in Production, [promote_to_production] of version 1 answers [True],
    and version 1, which was deployed before the call, is in Production
    afterwards, not Archived. *)
Lemma promote_to_production_redeploys_current :
  let name := "noshow-prediction-model" in
  let s := Examples.incumbent_store [] in
  let s' := snd (promote_to_production Examples.registry 1 true s) in
  fst (promote_to_production Examples.registry 1 true s) = Returns true /\
  stage_of (versions_of s name) 1 = Some Production /\
  stage_of (versions_of s' name) 1 = Some Production /\
  stage_of (versions_of s' name) 1 <> Some Archived.
Proof. cbv zeta. repeat split; try (vm_compute; reflexivity). vm_compute. discriminate. Qed.

(** C1, amended.  Start from a registry in which, for every model name,
    version numbers are not repeated and at most one version is in
    Production.  Then after any sequence of [register_model] and
    [promote_to_production (archive_existing=True)] calls, whatever each
    call answers, every model name still has at most one version in
    Production.  And when one such promotion of [v] answers [True], [v] is
    in Production afterwards and every other version that was in
    Production before the call is Archived. *)
Theorem promote_to_production_single_deployed s calls :
  (forall name, registry_ok (versions_of s name)) ->
  (forall name, at_most_one_deployed (versions_of (after_calls s calls) name)) /\
  (forall self v s',
     promote_to_production self v true s = (Returns true, s') ->
     stage_of (versions_of s' (model_name self)) v = Some Production /\
     (forall mv, mv ∈ versions_of s (model_name self) ->
        current_stage mv = Production -> version mv <> v ->
        stage_of (versions_of s' (model_name self)) (version mv) = Some Archived)).
Proof.
  intros Hok. split.
  - intros name. apply (after_calls_ok calls s Hok name).
  - intros self v s' Hpromote.
    destruct (promote_to_production_cases self v s)
      as (ok & s1 & Heq & _ & _ & Hsame).
    rewrite Hpromote in Heq. injection Heq as <- <-.
    destruct Hsame as [Hv ->]. split.
    + rewrite stage_of_set_stage, decide_True by done.
      rewrite <- has_version_archive_latest in Hv.
      destruct (has_version_stage_of _ _ Hv) as [st ->]. reflexivity.
    + intros mv Hin Hst Hne.
      rewrite stage_of_set_stage, decide_False by done.
      unfold archive_latest.
      destruct (latest_in_stage _ _) as [pv|] eqn:Hlatest.
      * destruct (Hok (model_name self)) as [_ Hone].
        rewrite (latest_is_only_deployed _ _ _ Hone Hlatest Hin Hst).
        rewrite stage_of_set_stage, decide_True by done.
        destruct (latest_in_stage_Some _ _ _ Hlatest) as (Hpin & _ & _).
        destruct (stage_of_elem _ _ Hpin) as [st ->]. reflexivity.
      * exfalso. exact (proj1 (latest_in_stage_None _ _) Hlatest mv Hin Hst).
Qed.

Lemma three_versions_ok name :
  registry_ok (versions_of (Examples.three_versions []) name).
Proof.
  unfold Examples.three_versions, Examples.store_with, versions_of. simpl.
  destruct (decide (name = "noshow-prediction-model")) as [->|Hne].
  - rewrite lookup_insert_eq. simpl. split.
    + apply (bool_decide_unpack _). vm_compute. reflexivity.
    + unfold at_most_one_deployed. vm_compute. lia.
  - rewrite lookup_insert_ne, lookup_empty by done. simpl. split.
    + constructor.
    + unfold at_most_one_deployed. simpl. lia.
Qed.

Lemma promote_to_production_single_deployed_witness :
  (forall name, registry_ok (versions_of (Examples.three_versions []) name)) /\
  at_most_one_deployed
    (versions_of
       (after_calls (Examples.three_versions [])
          [CallRegister Examples.registry "run-4";
           CallPromote Examples.registry 4;
           CallPromote Examples.registry 3])
       "noshow-prediction-model") /\
  stage_of
    (versions_of (snd (promote_to_production Examples.registry 3 true
                         (Examples.three_versions [])))
       "noshow-prediction-model") 3 = Some Production /\
  stage_of
    (versions_of (snd (promote_to_production Examples.registry 3 true
                         (Examples.three_versions [])))
       "noshow-prediction-model") 2 = Some Archived.
Proof.
  split; [exact three_versions_ok|].
  destruct (promote_to_production_single_deployed (Examples.three_versions [])
              [CallRegister Examples.registry "run-4";
               CallPromote Examples.registry 4;
               CallPromote Examples.registry 3] three_versions_ok)
    as [Hinv Hstep].
  split; [apply Hinv|].
  assert (Hrun : promote_to_production Examples.registry 3 true
                   (Examples.three_versions [])
                 = (Returns true,
                    snd (promote_to_production Examples.registry 3 true
                           (Examples.three_versions []))))
    by (vm_compute; reflexivity).
  destruct (Hstep Examples.registry 3%N _ Hrun) as [Hv Hothers].
  split; [exact Hv|].
  apply (Hothers (mkModelVersion 2 Production "run-2")).
  - apply list_elem_of_In. vm_compute. auto.
  - reflexivity.
  - discriminate.
Defined.

(** Why the starting registry matters: the client reports one version per
    stage, the newest.  With versions 1 and 2 both in Production (a state
    that [promote_to_production] with [archive_existing=False] produces),
    promoting version 3 archives version 2 only. *)
Example promote_archives_newest_only :
  let name := "noshow-prediction-model" in
  let s0 := Examples.store_with
              [mkModelVersion 1 Production "run-1";
               mkModelVersion 2 StageNone "run-2";
               mkModelVersion 3 StageNone "run-3"] ∅ [] in
  let s1 := snd (promote_to_production Examples.registry 2 false s0) in
  let s2 := snd (promote_to_production Examples.registry 3 true s1) in
  version <$> deployed (versions_of s1 name) = [1; 2]%N /\
  fst (promote_to_production Examples.registry 3 true s1) = Returns true /\
  version <$> deployed (versions_of s2 name) = [1; 3]%N.
Proof. cbv zeta. repeat split; vm_compute; reflexivity. Qed.

(** ** Automatic promotion *)

Lemma get_production_model_metrics_frame self s r s' :
  get_production_model_metrics self s = (r, s') ->
  models s' = models s /\ runs s' = runs s.
Proof.
  rewrite get_production_model_metrics_eq.
  destruct (next_fault s); [by intros [= <- <-]|].
  destruct (latest_in_stage _ _); [|by intros [= <- <-]].
  destruct (next_fault (tick s)); by intros [= <- <-].
Qed.

Lemma compare_models_frame self rid m hib s r s' :
  compare_models self rid m hib s = (r, s') ->
  models s' = models s /\ runs s' = runs s.
Proof.
  unfold compare_models, bind. rewrite get_run_eq.
  destruct (next_fault s); [by intros [= <- <-]|].
  destruct (runs s !! rid) as [cand|]; [|by intros [= <- <-]].
  destruct (cand !! m); [|by intros [= <- <-]].
  destruct (get_production_model_metrics self (tick s)) as [[inc|e] s2] eqn:Hinc;
    apply get_production_model_metrics_frame in Hinc as [Hm Hr].
  - destruct inc as [pm|]; [destruct (pm !! m)|]; intros [= <- <-]; auto.
  - intros [= <- <-]; auto.
Qed.

Lemma versions_of_models s s' name :
  models s' = models s -> versions_of s' name = versions_of s name.
Proof. unfold versions_of. by intros ->. Qed.

Lemma stage_of_registered vs rid :
  stage_of (vs ++ [mkModelVersion (next_version vs) StageNone rid]) (next_version vs)
  = Some StageNone.
Proof.
  rewrite stage_of_app, stage_of_fresh.
  - unfold stage_of. simpl. by rewrite N.eqb_refl.
  - intros mv Hin. pose proof (next_version_fresh _ _ Hin). lia.
Qed.

Lemma stage_of_archive_latest_registered vs rid :
  stage_of (archive_latest (vs ++ [mkModelVersion (next_version vs) StageNone rid]))
    (next_version vs) = Some StageNone.
Proof.
  unfold archive_latest.
  destruct (latest_in_stage _ _) as [pv|] eqn:Hlatest; [|apply stage_of_registered].
  destruct (latest_in_stage_Some _ _ _ Hlatest) as (Hin & Hst & _).
  rewrite stage_of_set_stage, decide_False; [apply stage_of_registered|].
  apply elem_of_app in Hin as [Hin|Hin].
  - pose proof (next_version_fresh _ _ Hin). lia.
  - apply list_elem_of_singleton in Hin. subst pv. discriminate.
Qed.

Lemma fault_free_tick s : fault_free s -> fault_free (tick s).
Proof. intros H. exact (proj2 (fault_free_next _ H)). Qed.

Lemma get_production_model_metrics_fault_free self s :
  fault_free s -> fault_free (snd (get_production_model_metrics self s)).
Proof.
  intros Hff. rewrite get_production_model_metrics_eq.
  pose proof (fault_free_tick _ Hff) as Hff1.
  pose proof (fault_free_tick _ Hff1) as Hff2.
  destruct (next_fault s); [exact Hff1|].
  destruct (latest_in_stage _ _); [|exact Hff1].
  destruct (next_fault (tick s)); exact Hff2.
Qed.

Lemma compare_models_fault_free self rid m hib s :
  fault_free s -> fault_free (snd (compare_models self rid m hib s)).
Proof.
  intros Hff. pose proof (fault_free_tick _ Hff) as Hff1.
  unfold compare_models, bind. rewrite get_run_eq.
  destruct (next_fault s); [exact Hff1|].
  destruct (runs s !! rid) as [cand|]; [|exact Hff1].
  destruct (cand !! m); [|exact Hff1].
  pose proof (get_production_model_metrics_fault_free self _ Hff1) as Hff2.
  destruct (get_production_model_metrics self (tick s)) as [[inc|e] s2];
    [|exact Hff2].
  destruct inc as [pm|]; [destruct (pm !! m)|]; exact Hff2.
Qed.

(** A version added in another stage does not change the newest version
    of a stage. *)
Lemma latest_in_stage_app_other vs x st :
  current_stage x <> st -> latest_in_stage (vs ++ [x]) st = latest_in_stage vs st.
Proof.
  intros Hx. induction vs as [|y vs IH]; simpl.
  - by rewrite decide_False.
  - rewrite IH. reflexivity.
Qed.

(** Against a store that answers, promoting a version the name has archives
    what the client reports in Production and deploys the version. *)
Lemma promote_to_production_answering self v s :
  fault_free s ->
  has_version (versions_of s (model_name self)) v = true ->
  exists s',
    promote_to_production self v true s = (Returns true, s') /\
    versions_of s' (model_name self)
    = set_stage v Production <$> archive_latest (versions_of s (model_name self)).
Proof.
  intros Hff Hv.
  destruct (fault_free_next _ Hff) as [Hf1 Hff1].
  destruct (fault_free_next _ Hff1) as [Hf2 Hff2].
  destruct (fault_free_next _ Hff2) as [Hf3 _].
  assert (Hreg : is_registered s (model_name self) = true).
  { apply has_version_true in Hv as (mv & Hin & _).
    by apply (is_registered_elem _ _ mv). }
  pose proof (promote_with_archiving_eq self v s) as Heq. cbv zeta in Heq.
  rewrite Hf1, Hreg, Hf2, Hf3, Hv in Heq. rewrite Heq. unfold archive_latest.
  destruct (latest_in_stage _ _); eexists; (split; [reflexivity|]);
    by rewrite versions_of_same.
Qed.

(** C3.  When the registration call and the fetch of the candidate's run
    go through, [auto_promote_if_better] returns.  It has first registered
    the run as the next version number [v], in stage "None"; it then asks
    for the incumbent, which is the metric mapping logged by the run of the
    newest version in Production (absent when there is none, when its run
    is unknown or when one of the two lookups raises); the decision is
    [compare_policy] at the candidate's metrics and at that incumbent; it
    promotes only when the decision is true.  It returns [Some v] exactly
    when [v] ends in Production, and otherwise [None] with [v] still
    registered in stage "None".  Against a store whose calls all go
    through the promotion is not optional: the answer is [Some v] exactly
    when the policy says true, the former incumbent is then archived and
    [v] deployed, and otherwise the registry holds the old versions and
    the new one. *)
Theorem auto_promote_if_better_outcome self rid m hib s cand :
  next_fault s = false ->
  next_fault (tick s) = false ->
  runs s !! rid = Some cand ->
  let name := model_name self in
  let vs := versions_of s name in
  let v := next_version vs in
  let with_candidate := (vs ++ [mkModelVersion v StageNone rid])%list in
  let after_registration := set_versions (tick s) name with_candidate in
  let incumbent :=
    match latest_in_stage vs Production with
    | Some prod_version => runs s !! run_id prod_version
    | None => None
    end in
  exists r s' inc s2,
    auto_promote_if_better self rid m hib s = (Returns r, s') /\
    register_model self rid s = (Returns v, after_registration) /\
    get_production_model_metrics self (tick after_registration) = (Returns inc, s2) /\
    inc = (if next_fault (tick (tick s)) then None
           else match latest_in_stage vs Production with
                | Some prod_version =>
                    if next_fault (tick (tick (tick s))) then None
                    else runs s !! run_id prod_version
                | None => None
                end) /\
    (compare_policy cand inc m hib = false ->
     r = None /\ versions_of s' name = with_candidate) /\
    (r = Some v -> compare_policy cand inc m hib = true) /\
    (r = Some v \/ r = None) /\
    (r = Some v <-> stage_of (versions_of s' name) v = Some Production) /\
    (r = None -> stage_of (versions_of s' name) v = Some StageNone) /\
    (fault_free s ->
     inc = incumbent /\
     r = (if compare_policy cand incumbent m hib then Some v else None) /\
     versions_of s' name
     = if compare_policy cand incumbent m hib
       then set_stage v Production <$> archive_latest with_candidate
       else with_candidate).
Proof.
  intros Hf1 Hf2 Hcand name vs v with_candidate after_registration incumbent.
  assert (Hreg : register_model self rid s = (Returns v, after_registration)).
  { rewrite register_model_eq, Hf1, Hcand. reflexivity. }
  assert (Hrun : get_run rid after_registration
                 = (Returns cand, tick after_registration)).
  { rewrite get_run_eq.
    change (next_fault after_registration) with (next_fault (tick s)).
    change (runs after_registration) with (runs s). rewrite Hf2, Hcand. reflexivity. }
  assert (Hlatest : latest_in_stage with_candidate Production
                    = latest_in_stage vs Production).
  { apply latest_in_stage_app_other. discriminate. }
  pose proof (get_production_model_metrics_eq self (tick after_registration)) as Hinc.
  rewrite versions_of_tick in Hinc.
  assert (Hvs1 : versions_of after_registration (model_name self) = with_candidate)
    by apply versions_of_same.
  rewrite Hvs1, Hlatest in Hinc.
  change (next_fault (tick after_registration))
    with (next_fault (tick (tick s))) in Hinc.
  change (next_fault (tick (tick after_registration)))
    with (next_fault (tick (tick (tick s)))) in Hinc.
  change (runs (tick after_registration)) with (runs s) in Hinc.
  set (inc := if next_fault (tick (tick s)) then None
              else match latest_in_stage vs Production with
                   | Some prod_version =>
                       if next_fault (tick (tick (tick s))) then None
                       else runs s !! run_id prod_version
                   | None => None
                   end).
  assert (Hget : exists s2,
             get_production_model_metrics self (tick after_registration)
             = (Returns inc, s2)).
  { rewrite Hinc. unfold inc.
    destruct (next_fault (tick (tick s))); [eauto|].
    destruct (latest_in_stage vs Production); [|eauto].
    destruct (next_fault (tick (tick (tick s)))); eauto. }
  destruct Hget as [s2 Hget]. clear Hinc.
  pose proof (compare_models_decides _ _ _ m hib _ _ _ _ Hrun Hget) as Hcmp.
  pose proof (compare_models_fault_free self rid m hib after_registration) as Hff3.
  destruct (compare_models self rid m hib after_registration) as [b s3] eqn:Hcompare.
  simpl in Hcmp, Hff3. subst b.
  destruct (compare_models_frame _ _ _ _ _ _ _ Hcompare) as [Hm3 _].
  assert (Hvs3 : versions_of s3 name = with_candidate).
  { rewrite (versions_of_models _ _ _ Hm3). apply versions_of_same. }
  assert (Hhas : has_version with_candidate v = true).
  { apply has_version_true. exists (mkModelVersion v StageNone rid).
    split; [|reflexivity]. apply elem_of_app. right. by apply list_elem_of_singleton. }
  assert (Hfree : fault_free s -> inc = incumbent /\ fault_free s3).
  { intros Hff. pose proof (fault_free_tick _ Hff) as Hff1.
    destruct (fault_free_next _ Hff1) as [_ Hff2].
    destruct (fault_free_next _ Hff2) as [Hf3 Hff2'].
    destruct (fault_free_next _ Hff2') as [Hf4 _].
    split; [|exact (Hff3 Hff1)].
    unfold inc, incumbent. rewrite Hf3, Hf4.
    destruct (latest_in_stage vs Production); reflexivity. }
  unfold auto_promote_if_better, bind. rewrite Hreg, Hcompare.
  destruct (compare_policy cand inc m hib) eqn:Hpolicy.
  - destruct (promote_to_production_cases self v s3)
      as (ok & s' & Hpromote & _ & _ & Hsame).
    rewrite Hpromote. fold name in Hsame. rewrite Hvs3 in Hsame.
    destruct ok.
    + destruct Hsame as [Hv Hs'].
      exists (Some v), s', inc, s2. unfold ret.
      split; [reflexivity|]. split; [reflexivity|]. split; [exact Hget|].
      split; [reflexivity|].
      split; [intros; congruence|]. split; [done|]. split; [by left|].
      assert (Hprod : stage_of (versions_of s' name) v = Some Production).
      { rewrite Hs', stage_of_set_stage, decide_True by done.
        rewrite <- has_version_archive_latest in Hv.
        destruct (has_version_stage_of _ _ Hv) as [st ->]. reflexivity. }
      split; [done|]. split; [intros; congruence|].
      intros Hff. destruct (Hfree Hff) as [<- _]. rewrite Hpolicy. auto.
    + exists None, s', inc, s2. unfold ret.
      assert (Hnone : stage_of (versions_of s' name) v = Some StageNone).
      { destruct Hsame as [-> | ->];
          [apply stage_of_registered|apply stage_of_archive_latest_registered]. }
      split; [reflexivity|]. split; [reflexivity|]. split; [exact Hget|].
      split; [reflexivity|].
      split; [intros; congruence|]. split; [intros; congruence|]. split; [by right|].
      split; [rewrite Hnone; split; intros; congruence|]. split; [done|].
      intros Hff. exfalso. destruct (Hfree Hff) as [_ Hff3'].
      assert (Hhas3 : has_version (versions_of s3 (model_name self)) v = true).
      { fold name. rewrite Hvs3. exact Hhas. }
      destruct (promote_to_production_answering self v s3 Hff3' Hhas3)
        as (s'' & Hp & _).
      rewrite Hp in Hpromote. discriminate.
  - exists None, s3, inc, s2. unfold ret.
    assert (Hnone : stage_of (versions_of s3 name) v = Some StageNone).
    { rewrite Hvs3. apply stage_of_registered. }
    split; [reflexivity|]. split; [reflexivity|]. split; [exact Hget|].
    split; [reflexivity|].
    split; [done|]. split; [intros; congruence|]. split; [by right|].
    split; [rewrite Hnone; split; intros; congruence|]. split; [done|].
    intros Hff. destruct (Hfree Hff) as [<- _]. rewrite Hpolicy. auto.
Qed.

Lemma auto_promote_if_better_outcome_witness :
  let s := Examples.challenger_store [] in
  let name := "noshow-prediction-model" in
  next_fault s = false /\ next_fault (tick s) = false /\
  runs s !! "run-3" = Some (Examples.auc 0.85) /\
  fault_free s /\
  stage_of (versions_of s name) 1 = Some Production /\
  compare_policy (Examples.auc 0.85) (Some (Examples.auc 0.80)) "auc" true = true /\
  exists s',
    auto_promote_if_better Examples.registry "run-3" "auc" true s
      = (Returns (Some 2%N), s') /\
    versions_of s' name
    = [mkModelVersion 1 Archived "run-1"; mkModelVersion 2 Production "run-3"].
Proof.
  cbv zeta.
  assert (Hcand : runs (Examples.challenger_store []) !! "run-3"
                  = Some (Examples.auc 0.85)) by reflexivity.
  assert (Hff : fault_free (Examples.challenger_store [])) by reflexivity.
  split; [reflexivity|]. split; [reflexivity|]. split; [exact Hcand|].
  split; [exact Hff|]. split; [reflexivity|]. split; [reflexivity|].
  destruct (auto_promote_if_better_outcome Examples.registry "run-3" "auc" true
              (Examples.challenger_store []) (Examples.auc 0.85)
              eq_refl eq_refl Hcand)
    as (r & s' & inc & s2 & Hauto & _ & _ & _ & _ & _ & _ & _ & _ & Hforced).
  destruct (Hforced Hff) as (_ & Hr & Hvs).
  exists s'. split.
  - rewrite Hauto, Hr. reflexivity.
  - etransitivity; [exact Hvs|]. vm_compute. reflexivity.
Defined.

(** End to end: no version deployed, candidate registered with auc 0.85:
    it is promoted, and the deployed metrics afterwards are its own. *)
Example first_candidate_is_promoted :
  let s := {| models := ∅; runs := <["run-1" := Examples.auc 0.85]> ∅; faults := [] |} in
  let s' := snd (auto_promote_if_better Examples.registry "run-1" "auc" true s) in
  fst (auto_promote_if_better Examples.registry "run-1" "auc" true s)
    = Returns (Some 1%N) /\
  fst (get_production_model_metrics Examples.registry s')
    = Returns (Some (Examples.auc 0.85)).
Proof. cbv zeta. split; vm_compute; reflexivity. Qed.

(** End to end: incumbent deployed with auc 0.80, candidate with auc 0.75:
    not promoted; the incumbent stays in Production and the candidate stays
    registered in stage "None". *)
Example worse_candidate_is_not_promoted :
  let s := Examples.incumbent_store [] in
  let s' := snd (auto_promote_if_better Examples.registry "run-2" "auc" true s) in
  fst (auto_promote_if_better Examples.registry "run-2" "auc" true s)
    = Returns None /\
  stage_of (versions_of s' "noshow-prediction-model") 1 = Some Production /\
  stage_of (versions_of s' "noshow-prediction-model") 2 = Some StageNone.
Proof. cbv zeta. repeat split; vm_compute; reflexivity. Qed.

(** ** Handlers running side by side *)

(** The assignments listed by [load_production_model_assigns] are those of
    [load_production_model]: run in order on the globals, they give the
    state the function leaves. *)
Lemma load_production_model_assigns_spec MODEL_NAME versions_as g s :
  exists ws s',
    Interleaving.load_production_model_assigns MODEL_NAME versions_as s
      = (Returns ws, s') /\
    Serving.load_production_model MODEL_NAME versions_as g s
    = (Returns (foldl Interleaving.exec_assign g ws), s').
Proof.
  unfold Interleaving.load_production_model_assigns,
    Serving.load_production_model, Serving.load_production_model_try,
    try_except, bind.
  rewrite get_latest_versions_eq.
  destruct (next_fault s); [eexists _, _; split; reflexivity|].
  destruct (is_registered s MODEL_NAME); [|eexists _, _; split; reflexivity].
  simpl.
  destruct (latest_in_stage _ _) as [pm|].
  - rewrite load_model_eq.
    destruct (next_fault (tick s)); [eexists _, _; split; reflexivity|].
    destruct (latest_in_stage _ _); eexists _, _; split; reflexivity.
  - rewrite search_model_versions_eq.
    destruct (next_fault (tick s)); [eexists _, _; split; reflexivity|].
    destruct (Serving.max_by_version _) as [latest|];
      [|eexists _, _; split; reflexivity].
    rewrite load_model_eq.
    destruct (next_fault (tick (tick s))); [eexists _, _; split; reflexivity|].
    destruct (has_version _ _); eexists _, _; split; reflexivity.
Qed.

Lemma run_app validation score now request sched1 sched2 p :
  Interleaving.run validation score now request (sched1 ++ sched2) p
  = Interleaving.run validation score now request sched2
      (Interleaving.run validation score now request sched1 p).
Proof. unfold Interleaving.run. apply foldl_app. Qed.

Lemma run_reload_part validation score now request ws g rl :
  Interleaving.run validation score now request
    (replicate (length ws) Interleaving.PredictThread)
    {| Interleaving.globals := g;
       Interleaving.predicting := Interleaving.InReload ws;
       Interleaving.reloading := rl |}
  = {| Interleaving.globals := foldl Interleaving.exec_assign g ws;
       Interleaving.predicting := Interleaving.InReload [];
       Interleaving.reloading := rl |}.
Proof.
  revert g. induction ws as [|a ws IH]; intros g; [reflexivity|].
  simpl. unfold Interleaving.run in *. simpl. apply IH.
Qed.

(** Left alone, the [predict] thread computes what [respond] computes on
    the globals its reload leaves. *)
Lemma run_predict_alone validation score now request ws g rl :
  let g' := foldl Interleaving.exec_assign g ws in
  Interleaving.run validation score now request
    (replicate (length ws) Interleaving.PredictThread
       ++ replicate 3 Interleaving.PredictThread)
    {| Interleaving.globals := g;
       Interleaving.predicting := Interleaving.InReload ws;
       Interleaving.reloading := rl |}
  = {| Interleaving.globals := g';
       Interleaving.predicting :=
         Interleaving.Finished (Serving.model g')
           (Serving.respond validation score now request g');
       Interleaving.reloading := rl |}.
Proof.
  cbv zeta. rewrite run_app, run_reload_part.
  set (g' := foldl Interleaving.exec_assign g ws).
  unfold Interleaving.run, Serving.respond. cbn [replicate foldl].
  unfold Interleaving.step at 3. cbn [Interleaving.predict_step
    Interleaving.predicting Interleaving.globals Interleaving.reloading].
  destruct (Serving.model g') as [m|] eqn:Hm; cbn [fst snd].
  - unfold Interleaving.step at 2. cbn [Interleaving.predict_step
      Interleaving.predicting Interleaving.globals Interleaving.reloading].
    rewrite Hm. destruct (score m request) as [proba|e]; [|reflexivity].
    unfold Interleaving.step. cbn [Interleaving.predict_step Serving.obind
      Interleaving.predicting Interleaving.globals Interleaving.reloading fst snd].
    destruct (Serving.getitem _ "name"); cbn [Serving.obind]; [|reflexivity].
    destruct (Serving.getitem _ "version"); cbn [Serving.obind]; [|reflexivity].
    destruct (Serving.new_PredictionResponse _ _ _ _ _ _); reflexivity.
  - unfold Interleaving.step. cbn [Interleaving.predict_step Serving.obind
      Interleaving.predicting Interleaving.globals Interleaving.reloading fst snd].
    destruct (Serving.getitem _ "name"); cbn [Serving.obind]; [|reflexivity].
    destruct (Serving.getitem _ "version"); reflexivity.
Qed.

(** Against a store that answers, the state a reload leaves is decided by
    the version list alone. *)
Lemma load_production_model_answering MODEL_NAME versions_as g s :
  fault_free s ->
  exists s',
    Serving.load_production_model MODEL_NAME versions_as g s
    = (Returns
         (if is_registered s MODEL_NAME then
            match resolved (versions_of s MODEL_NAME) with
            | Some (v, stage) => loaded_globals MODEL_NAME versions_as v stage
            | None => no_model_globals g
            end
          else fallback_globals), s') /\
    models s' = models s /\ fault_free s'.
Proof.
  intros Hff.
  destruct (fault_free_next _ Hff) as [Hf1 Hff1].
  destruct (fault_free_next _ Hff1) as [Hf2 Hff2].
  destruct (fault_free_next _ Hff2) as [Hf3 Hff3].
  pose proof (load_production_model_eq MODEL_NAME versions_as g s) as Heq.
  cbv zeta in Heq.
  rewrite Hf1, Hf2, Hf3 in Heq. unfold resolved.
  destruct (is_registered s MODEL_NAME); [|eauto].
  destruct (latest_in_stage _ _) as [pm|]; [eauto|].
  destruct (Serving.max_by_version _) as [latest|]; eauto.
Qed.

Lemma resolved_nonempty vs : vs <> [] -> is_Some (resolved vs).
Proof.
  intros Hne. unfold resolved.
  destruct (latest_in_stage _ _); [by eexists|].
  destruct (Serving.max_by_version vs) eqn:Hmax; [by eexists|].
  by apply max_by_version_None in Hmax.
Qed.

(** C5, as stated, fails.  Version 1 is in Production when a request
    starts; another thread reloads after version 2 has replaced it.  In the
    first schedule the request has already applied version 1's predictor
    when the other thread assigns both globals, and it then reads the new
    identity: the response carries version "2" for a probability computed
    by version 1's predictor.  In the second schedule the other thread has
    assigned [model] but not yet [model_info]: the request applies version
    2's predictor and reports version "1".  This is what happens with the
    file store under pydantic 1, and with string versions under
    pydantic 2.  With the file store under pydantic 2 the integer version
    is rejected by the response model, and both requests are answered
    HTTP 500: no identity is returned at all. *)
Lemma predict_reports_other_version :
  let name := "noshow-prediction-model" in
  let before t :=
    [Interleaving.SetModel (Some (Serving.mkPredictor name 1));
     Interleaving.SetModelInfo
       (Serving.info name (Serving.raw_version t 1) "Production")] in
  let after t :=
    [Interleaving.SetModel (Some (Serving.mkPredictor name 2));
     Interleaving.SetModelInfo
       (Serving.info name (Serving.raw_version t 2) "Production")] in
  let start t := {| Interleaving.globals := Serving.initial_globals;
                    Interleaving.predicting := Interleaving.InReload (before t);
                    Interleaving.reloading := after t |} in
  let response v := {| Serving.probability := 0.75; Serving.is_no_show := true;
                       Serving.model_name := name; Serving.model_version := v;
                       Serving.prediction_timestamp := "2024-01-01T00:00:00" |} in
  let P := Interleaving.PredictThread in
  let R := Interleaving.ReloadThread in
  let outcome_of p t schedule :=
    Interleaving.predicting
      (Interleaving.run p Examples.constant_score "2024-01-01T00:00:00"
         Examples.request schedule (start t)) in
  (fst (Interleaving.load_production_model_assigns name Serving.IntVersion
          (Examples.incumbent_store [])) = Returns (before Serving.IntVersion) /\
   fst (Interleaving.load_production_model_assigns name Serving.IntVersion
          (Examples.three_versions [])) = Returns (after Serving.IntVersion) /\
   fst (Interleaving.load_production_model_assigns name Serving.StrVersion
          (Examples.incumbent_store [])) = Returns (before Serving.StrVersion) /\
   fst (Interleaving.load_production_model_assigns name Serving.StrVersion
          (Examples.three_versions [])) = Returns (after Serving.StrVersion)) /\
  (outcome_of Serving.Pydantic1 Serving.IntVersion [P; P; P; P; R; R; P]
     = Interleaving.Finished (Some (Serving.mkPredictor name 1))
         (Returns (response "2")) /\
   outcome_of Serving.Pydantic1 Serving.IntVersion [P; P; P; R; P; P]
     = Interleaving.Finished (Some (Serving.mkPredictor name 2))
         (Returns (response "1"))) /\
  (outcome_of Serving.Pydantic2 Serving.StrVersion [P; P; P; P; R; R; P]
     = Interleaving.Finished (Some (Serving.mkPredictor name 1))
         (Returns (response "2")) /\
   outcome_of Serving.Pydantic2 Serving.StrVersion [P; P; P; R; P; P]
     = Interleaving.Finished (Some (Serving.mkPredictor name 2))
         (Returns (response "1"))) /\
  (outcome_of Serving.Pydantic2 Serving.IntVersion [P; P; P; P; R; R; P]
     = Interleaving.Finished (Some (Serving.mkPredictor name 1))
         (Raises (HTTPException 500)) /\
   outcome_of Serving.Pydantic2 Serving.IntVersion [P; P; P; R; P; P]
     = Interleaving.Finished (Some (Serving.mkPredictor name 2))
         (Raises (HTTPException 500))) /\
  pretty 1%N <> "2" /\ pretty 2%N <> "1".
Proof.
  cbv zeta. repeat split; try (vm_compute; reflexivity); vm_compute; discriminate.
Qed.

(** C5, amended.  The two globals are assigned and read one at a time, so
    nothing holds across a concurrent reload.  What holds is sequential:
    against a store that answers and has at least one version of the
    configured name, [load_production_model] followed by [predict], with no
    other thread running in between and the registry unchanged, leaves the
    globals that the reload left and applies the predictor of the version
    the reload resolved.  When the response model accepts the version the
    client handed out (a string, or an integer under pydantic 1), the
    response reports that same version; when it does not (an integer under
    pydantic 2), the request is answered HTTP 500.  The [predict] thread of
    the step machine, run without interruption, gives the same answer. *)
Theorem predict_sequential_identity
    MODEL_NAME versions_as validation score now request g s :
  fault_free s ->
  versions_of s MODEL_NAME <> [] ->
  exists g1 s1 p s2 ws,
    Serving.load_production_model MODEL_NAME versions_as g s = (Returns g1, s1) /\
    Serving.model g1 = Some p /\
    Serving.model_info g1 !! "version"
      = Some (Serving.raw_version versions_as (Serving.loaded_version p)) /\
    Serving.predict MODEL_NAME versions_as validation score now request g1 s1
      = (Returns (g1, Serving.respond validation score now request g1), s2) /\
    (forall proba, score p request = Returns proba ->
       Serving.respond validation score now request g1
       = if version_accepted versions_as validation
         then Returns {| Serving.probability := proba;
                         Serving.is_no_show := (0.5 <? proba)%float;
                         Serving.model_name := MODEL_NAME;
                         Serving.model_version := pretty (Serving.loaded_version p);
                         Serving.prediction_timestamp := now |}
         else Raises (HTTPException 500)) /\
    Interleaving.load_production_model_assigns MODEL_NAME versions_as s1
      = (Returns ws, s2) /\
    (forall rl,
       Interleaving.run validation score now request
         (replicate (length ws + 3) Interleaving.PredictThread)
         {| Interleaving.globals := g1;
            Interleaving.predicting := Interleaving.InReload ws;
            Interleaving.reloading := rl |}
       = {| Interleaving.globals := g1;
            Interleaving.predicting :=
              Interleaving.Finished (Some p)
                (Serving.respond validation score now request g1);
            Interleaving.reloading := rl |}).
Proof.
  intros Hff Hne.
  pose proof (is_registered_nonempty _ _ Hne) as Hreg.
  destruct (load_production_model_answering MODEL_NAME versions_as g s Hff)
    as (s1 & Hload & Hmodels & Hff1).
  destruct (resolved_nonempty _ Hne) as [[v stage] Hres].
  rewrite Hreg, Hres in Hload.
  set (g1 := loaded_globals MODEL_NAME versions_as v stage) in *.
  destruct (load_production_model_answering MODEL_NAME versions_as g1 s1 Hff1)
    as (s2 & Hload1 & _ & _).
  assert (Hreg1 : is_registered s1 MODEL_NAME = true).
  { unfold is_registered. rewrite Hmodels. exact Hreg. }
  rewrite Hreg1, (versions_of_models _ _ _ Hmodels), Hres in Hload1.
  fold g1 in Hload1.
  destruct (load_production_model_assigns_spec MODEL_NAME versions_as g1 s1)
    as (ws & s2' & Hws & Hload1').
  rewrite Hload1 in Hload1'. injection Hload1' as Hg1 <-.
  exists g1, s1, (Serving.mkPredictor MODEL_NAME v), s2, ws.
  split; [exact Hload|]. split; [reflexivity|]. split; [reflexivity|].
  split; [|split; [|split; [exact Hws|]]].
  - unfold Serving.predict, bind. rewrite Hload1. reflexivity.
  - intros proba Hscore. unfold g1. rewrite respond_loaded, Hscore. reflexivity.
  - intros rl. rewrite replicate_add.
    pose proof (run_predict_alone validation score now request ws g1 rl) as Hrun.
    cbv zeta in Hrun. rewrite <- Hg1 in Hrun. exact Hrun.
Qed.

Lemma predict_sequential_identity_witness :
  fault_free (Examples.three_versions []) /\
  versions_of (Examples.three_versions []) "noshow-prediction-model" <> [] /\
  exists g1 s1 s2,
    Serving.load_production_model "noshow-prediction-model" Serving.IntVersion
      Serving.initial_globals (Examples.three_versions []) = (Returns g1, s1) /\
    Serving.predict "noshow-prediction-model" Serving.IntVersion Serving.Pydantic1
      Examples.constant_score "2024-01-01T00:00:00" Examples.request g1 s1
    = (Returns (g1, Returns {| Serving.probability := 0.75;
                               Serving.is_no_show := true;
                               Serving.model_name := "noshow-prediction-model";
                               Serving.model_version := "2";
                               Serving.prediction_timestamp := "2024-01-01T00:00:00" |}),
       s2).
Proof.
  assert (Hne : versions_of (Examples.three_versions []) "noshow-prediction-model"
                <> []) by (vm_compute; discriminate).
  split; [reflexivity|]. split; [exact Hne|].
  destruct (predict_sequential_identity "noshow-prediction-model"
              Serving.IntVersion Serving.Pydantic1
              Examples.constant_score "2024-01-01T00:00:00" Examples.request
              Serving.initial_globals (Examples.three_versions []) eq_refl Hne)
    as (g1 & s1 & p & s2 & ws & Hload & Hp & Hv & Hpredict & Hresp & _).
  exists g1, s1, s2. split; [exact Hload|].
  rewrite Hpredict. f_equal. f_equal.
  rewrite (Hresp 0.75%float eq_refl).
  vm_compute in Hload. injection Hload as <- _.
  vm_compute in Hp. injection Hp as <-. reflexivity.
Defined.

(** * Further properties of the code *)

(** ** Promotion, call by call *)

Lemma identities_set_stage v st (vs : list ModelVersion) :
  (fun mv => (version mv, run_id mv)) <$> (set_stage v st <$> vs)
  = (fun mv => (version mv, run_id mv)) <$> vs.
Proof.
  rewrite <- list_fmap_compose. apply list_fmap_ext.
  intros i mv _. simpl. unfold set_stage. destruct (decide _); reflexivity.
Qed.

Ltac store_frame :=
  repeat (rewrite versions_of_tick
          || rewrite versions_of_same
          || (rewrite versions_of_other by done)
          || rewrite identities_set_stage).

Ltac relabel_frame :=
  eexists _, _; split; [reflexivity|]; split; [reflexivity|]; split;
  [intros name' Hne; by store_frame|]; split; [by store_frame|].

(** X1.  [promote_to_production] never raises, for either value of
    [archive_existing]: every failure of the client becomes the answer
    [False], and the answer is [True] only when every call it made went
    through: the first call did not raise, the version to promote exists
    under the name and, when archiving, the second call did not raise
    either, nor the third one when a version was in Production.  Whatever
    it answers, it only relabels stages: the version numbers and run ids
    of the model name are the same list afterwards, and the runs and the
    other model names are untouched. *)
Theorem promote_to_production_only_relabels self v archive_existing s :
  let name := model_name self in
  let vs := versions_of s name in
  exists ok s',
    promote_to_production self v archive_existing s = (Returns ok, s') /\
    runs s' = runs s /\
    (forall name', name' <> name -> versions_of s' name' = versions_of s name') /\
    (fun mv => (version mv, run_id mv)) <$> versions_of s' name
    = (fun mv => (version mv, run_id mv)) <$> vs /\
    (ok = true <->
     next_fault s = false /\ has_version vs v = true /\
     (archive_existing = true ->
      next_fault (tick s) = false /\
      (latest_in_stage vs Production <> None ->
       next_fault (tick (tick s)) = false))).
Proof.
  cbv zeta. destruct archive_existing.
  - pose proof (promote_with_archiving_eq self v s) as Heq. cbv zeta in Heq.
    rewrite Heq. clear Heq.
    destruct (next_fault s) eqn:Hf1.
    { relabel_frame. split; [discriminate|]. intros (H1 & _). discriminate. }
    destruct (is_registered s (model_name self)) eqn:Hreg; simpl.
    2: { relabel_frame. split; [discriminate|]. intros (_ & H2 & _).
         rewrite (versions_of_unregistered _ _ Hreg) in H2. discriminate. }
    destruct (next_fault (tick s)) eqn:Hf2.
    { relabel_frame. split; [discriminate|]. intros (_ & _ & H3).
      destruct (H3 eq_refl) as [H4 _]. discriminate. }
    destruct (latest_in_stage _ _) as [pv|] eqn:Hlatest.
    + destruct (next_fault (tick (tick s))) eqn:Hf3.
      { relabel_frame. split; [discriminate|]. intros (_ & _ & H3).
        destruct (H3 eq_refl) as [_ H5].
        assert (H6 : Some pv <> None) by discriminate.
        specialize (H5 H6). discriminate. }
      destruct (has_version _ v) eqn:Hv; relabel_frame.
      * split; [|reflexivity]. intros _. auto.
      * split; [discriminate|]. intros (_ & H2 & _). discriminate.
    + destruct (has_version _ v) eqn:Hv; relabel_frame.
      * split; [|reflexivity]. intros _.
        split; [reflexivity|]. split; [reflexivity|]. intros _.
        split; [reflexivity|]. intros H. done.
      * split; [discriminate|]. intros (_ & H2 & _). discriminate.
  - rewrite promote_without_archiving_eq.
    destruct (next_fault s) eqn:Hf1.
    { relabel_frame. split; [discriminate|]. intros (H1 & _). discriminate. }
    destruct (has_version _ v) eqn:Hv; relabel_frame.
    + split; [|reflexivity]. intros _.
      split; [reflexivity|]. split; [reflexivity|]. discriminate.
    + split; [discriminate|]. intros (_ & H2 & _). discriminate.
Qed.

(** X2.  With [archive_existing=False] a promotion that answers [True]
    archives nothing: every version that was in Production is still there,
    unchanged, next to the promoted one.  Promoting a version other than
    the deployed one therefore leaves two versions in Production. *)
Theorem promote_without_archiving_keeps_deployed self v s s' :
  promote_to_production self v false s = (Returns true, s') ->
  (forall mv, mv ∈ deployed (versions_of s (model_name self)) ->
              mv ∈ deployed (versions_of s' (model_name self))) /\
  (exists mv, mv ∈ deployed (versions_of s' (model_name self)) /\ version mv = v) /\
  length (deployed (versions_of s (model_name self)))
  <= length (deployed (versions_of s' (model_name self))).
Proof.
  rewrite promote_without_archiving_eq.
  destruct (next_fault s); [discriminate|].
  destruct (has_version _ v) eqn:Hv; [|discriminate].
  intros [= <-]. rewrite versions_of_same.
  set (vs := versions_of s (model_name self)) in *.
  assert (Hkeep : forall mv, mv ∈ deployed vs ->
                             mv ∈ deployed (set_stage v Production <$> vs)).
  { unfold deployed. intros mv [Hst Hin]%list_elem_of_filter.
    apply list_elem_of_filter. split; [done|].
    apply list_elem_of_fmap. exists mv. split; [|done].
    unfold set_stage. destruct (decide _); [|done].
    destruct mv as [n st r]. simpl in *. by subst st. }
  split; [exact Hkeep|]. split.
  - apply has_version_true in Hv as (mv & Hin & Hver).
    exists (set_stage v Production mv). split; [|by rewrite version_set_stage].
    unfold deployed. apply list_elem_of_filter. split.
    + unfold set_stage. rewrite decide_True by done. reflexivity.
    + apply list_elem_of_fmap. by exists mv.
  - unfold deployed. clear Hkeep Hv. induction vs as [|x vs IH]; [simpl; lia|].
    rewrite fmap_cons, !filter_cons.
    destruct (decide (current_stage x = Production)) as [Hx|Hx].
    + rewrite decide_True; [simpl; lia|].
      unfold set_stage. destruct (decide _); done.
    + destruct (decide _); simpl; lia.
Qed.

Lemma promote_without_archiving_keeps_deployed_witness :
  let s := Examples.candidate_store [] in
  let s' := snd (promote_to_production Examples.registry 2 false s) in
  promote_to_production Examples.registry 2 false s = (Returns true, s') /\
  version <$> deployed (versions_of s "noshow-prediction-model") = [1%N] /\
  version <$> deployed (versions_of s' "noshow-prediction-model") = [1%N; 2%N] /\
  length (deployed (versions_of s "noshow-prediction-model"))
  <= length (deployed (versions_of s' "noshow-prediction-model")).
Proof.
  cbv zeta.
  assert (Hrun : promote_to_production Examples.registry 2 false
                   (Examples.candidate_store [])
                 = (Returns true,
                    snd (promote_to_production Examples.registry 2 false
                           (Examples.candidate_store []))))
    by (vm_compute; reflexivity).
  split; [exact Hrun|]. split; [vm_compute; reflexivity|].
  split; [vm_compute; reflexivity|].
  exact (proj2 (proj2 (promote_without_archiving_keeps_deployed
                         Examples.registry 2%N _ _ Hrun))).
Defined.

(** X3.  The archiving comes first and is not undone.  When at most one
    version is in Production, the first two client calls go through and
    [promote_to_production] with [archive_existing=True] still answers
    [False] (the version to promote is unknown to the registry, or the last
    call raised), no version at all is left in Production: the incumbent
    has been archived and nothing replaced it. *)
Theorem promote_failure_leaves_none_deployed self v s s' :
  at_most_one_deployed (versions_of s (model_name self)) ->
  next_fault s = false ->
  next_fault (tick s) = false ->
  promote_to_production self v true s = (Returns false, s') ->
  deployed (versions_of s' (model_name self)) = [].
Proof.
  intros Hone Hf1 Hf2.
  pose proof (promote_with_archiving_eq self v s) as Heq. cbv zeta in Heq.
  rewrite Heq, Hf1. clear Heq.
  pose proof (archive_latest_none_deployed _ Hone) as Hnone.
  unfold archive_latest in Hnone.
  destruct (is_registered s (model_name self)) eqn:Hreg; simpl.
  2: { intros [= <-]. rewrite versions_of_tick.
       by rewrite (versions_of_unregistered _ _ Hreg). }
  rewrite Hf2.
  destruct (latest_in_stage _ _) as [pv|].
  - destruct (next_fault (tick (tick s))); [|destruct (has_version _ v)];
      intros [= <-]; by store_frame.
  - destruct (has_version _ v); intros [= <-]. by store_frame.
Qed.

Lemma promote_failure_leaves_none_deployed_witness :
  let s := Examples.incumbent_store [] in
  let s' := snd (promote_to_production Examples.registry 7 true s) in
  version <$> deployed (versions_of s "noshow-prediction-model") = [1%N] /\
  promote_to_production Examples.registry 7 true s = (Returns false, s') /\
  deployed (versions_of s' "noshow-prediction-model") = [].
Proof.
  cbv zeta.
  assert (Hrun : promote_to_production Examples.registry 7 true
                   (Examples.incumbent_store [])
                 = (Returns false,
                    snd (promote_to_production Examples.registry 7 true
                           (Examples.incumbent_store []))))
    by (vm_compute; reflexivity).
  split; [vm_compute; reflexivity|]. split; [exact Hrun|].
  apply (promote_failure_leaves_none_deployed Examples.registry 7%N
           (Examples.incumbent_store []) _); [|reflexivity|reflexivity|exact Hrun].
  unfold at_most_one_deployed. vm_compute. lia.
Defined.

(** X4.  Against a store whose calls all go through, [promote_to_production]
    answers [True] exactly when the version to promote exists under the
    model name, for either value of [archive_existing]. *)
Theorem promote_to_production_succeeds_iff_known self v archive_existing s :
  fault_free s ->
  fst (promote_to_production self v archive_existing s) = Returns true
  <-> has_version (versions_of s (model_name self)) v = true.
Proof.
  intros Hff.
  destruct (fault_free_next _ Hff) as [Hf1 Hff1].
  destruct (fault_free_next _ Hff1) as [Hf2 Hff2].
  destruct (fault_free_next _ Hff2) as [Hf3 _].
  destruct archive_existing.
  - pose proof (promote_with_archiving_eq self v s) as Heq. cbv zeta in Heq.
    rewrite Heq, Hf1, Hf2, Hf3. clear Heq.
    destruct (is_registered s (model_name self)) eqn:Hreg; simpl.
    + destruct (latest_in_stage _ _); destruct (has_version _ v); simpl;
        split; congruence.
    + rewrite (versions_of_unregistered _ _ Hreg). simpl. split; congruence.
  - rewrite promote_without_archiving_eq, Hf1.
    destruct (has_version _ v); simpl; split; congruence.
Qed.

Lemma promote_to_production_succeeds_iff_known_witness :
  fault_free (Examples.candidate_store []) /\
  fst (promote_to_production Examples.registry 2 true (Examples.candidate_store []))
    = Returns true /\
  fst (promote_to_production Examples.registry 3 true (Examples.candidate_store []))
    <> Returns true.
Proof.
  split; [reflexivity|]. split.
  - apply (promote_to_production_succeeds_iff_known Examples.registry 2%N true
             (Examples.candidate_store []) eq_refl). reflexivity.
  - intros H.
    apply (promote_to_production_succeeds_iff_known Examples.registry 3%N true
             (Examples.candidate_store []) eq_refl) in H. discriminate H.
Defined.

(** ** Comparison *)

(** X5.  Comparing is read-only: whatever they answer or raise,
    [compare_models] and [get_production_model_metrics] leave every version
    list and every run of the store as they found them. *)
Theorem compare_models_read_only self rid m hib s :
  models (snd (compare_models self rid m hib s)) = models s /\
  runs (snd (compare_models self rid m hib s)) = runs s /\
  models (snd (get_production_model_metrics self s)) = models s /\
  runs (snd (get_production_model_metrics self s)) = runs s.
Proof.
  destruct (compare_models self rid m hib s) as [r s'] eqn:Hcmp.
  destruct (get_production_model_metrics self s) as [r0 s0] eqn:Hget.
  apply compare_models_frame in Hcmp as [? ?].
  apply get_production_model_metrics_frame in Hget as [? ?].
  auto.
Qed.

Lemma SFcompare_Lt_Gt x y : SFcompare x y = Some Lt -> SFcompare y x = Some Gt.
Proof.
  destruct x as [sx|sx| |sx mx ex], y as [sy|sy| |sy my ey]; simpl; try congruence;
    try (destruct sx; congruence); try (destruct sy; congruence).
  - destruct sx, sy; congruence.
  - destruct sx, sy; try congruence.
    + rewrite (Z.compare_antisym ex ey). destruct (ex ?= ey)%Z; simpl; try congruence.
      fold (Pos.compare mx my). fold (Pos.compare my mx).
      rewrite (Pos.compare_antisym mx my).
      destruct (mx ?= my)%positive; simpl; congruence.
    + rewrite (Z.compare_antisym ex ey). destruct (ex ?= ey)%Z; simpl; try congruence.
      fold (Pos.compare mx my). fold (Pos.compare my mx).
      rewrite (Pos.compare_antisym mx my).
      destruct (mx ?= my)%positive; simpl; congruence.
Qed.

Lemma float_lt_asym (x y : float) : (x <? y)%float = true -> (y <? x)%float = false.
Proof.
  rewrite !FloatAxioms.ltb_spec. unfold SFltb. intros H.
  assert (Hxy : SFcompare (Prim2SF x) (Prim2SF y) = Some Lt).
  { destruct (SFcompare (Prim2SF x) (Prim2SF y)) as [[]|]; congruence. }
  rewrite (SFcompare_Lt_Gt _ _ Hxy). reflexivity.
Qed.

Lemma SFcompare_refl x : x <> S754_nan -> SFcompare x x = Some Eq.
Proof.
  destruct x as [s|s| |s m e]; simpl; intros H; try congruence.
  - destruct s; reflexivity.
  - destruct s; rewrite Z.compare_refl; fold (Pos.compare m m);
      rewrite Pos.compare_refl; reflexivity.
Qed.

(** Nothing is below or above NaN. *)
Lemma float_nan_lt (x y : float) :
  is_nan x = true \/ is_nan y = true -> (x <? y)%float = false.
Proof.
  assert (Hnan : forall z, is_nan z = true -> Prim2SF z = S754_nan).
  { intros z. unfold is_nan. rewrite FloatAxioms.eqb_spec. unfold SFeqb.
    intros Hz. destruct (Prim2SF z) as [s|s| |s m e] eqn:Hp; [| |reflexivity|];
      rewrite SFcompare_refl in Hz by discriminate; discriminate. }
  rewrite FloatAxioms.ltb_spec. unfold SFltb.
  intros [Hx|Hy].
  - rewrite (Hnan _ Hx). reflexivity.
  - rewrite (Hnan _ Hy). destruct (Prim2SF x); reflexivity.
Qed.

(** X6.  NaN never wins and never loses.  When the candidate and the
    incumbent both carry the metric and one of the two values is NaN,
    [compare_models] answers [False] in either direction: a candidate
    scored NaN is not promoted, and an incumbent scored NaN cannot be
    displaced by any candidate. *)
Theorem compare_models_nan_never_better self s rid m hib cand s1 pm s2 c p :
  get_run rid s = (Returns cand, s1) ->
  get_production_model_metrics self s1 = (Returns (Some pm), s2) ->
  cand !! m = Some c ->
  pm !! m = Some p ->
  is_nan c = true \/ is_nan p = true ->
  fst (compare_models self rid m hib s) = Returns false.
Proof.
  intros Hrun Hinc Hc Hp Hnan.
  rewrite (compare_models_decides _ _ _ m hib _ _ _ _ Hrun Hinc).
  unfold compare_policy. rewrite Hc, Hp.
  destruct hib; rewrite float_nan_lt; tauto.
Qed.

Lemma compare_models_nan_never_better_witness :
  fst (compare_models Examples.registry "run-2" "auc" true
         Examples.nan_incumbent_store) = Returns false /\
  fst (compare_models Examples.registry "run-2" "auc" false
         Examples.nan_incumbent_store) = Returns false.
Proof.
  assert (Hrun : get_run "run-2" Examples.nan_incumbent_store
                 = (Returns (Examples.auc 0.75), tick Examples.nan_incumbent_store))
    by reflexivity.
  assert (Hinc : get_production_model_metrics Examples.registry
                   (tick Examples.nan_incumbent_store)
                 = (Returns (Some (Examples.auc nan)),
                    tick (tick (tick Examples.nan_incumbent_store))))
    by reflexivity.
  assert (Hc : Examples.auc 0.75 !! "auc" = Some 0.75%float) by reflexivity.
  assert (Hp : Examples.auc nan !! "auc" = Some nan) by reflexivity.
  split.
  - exact (compare_models_nan_never_better _ _ _ _ true _ _ _ _ _ _
             Hrun Hinc Hc Hp (or_intror eq_refl)).
  - exact (compare_models_nan_never_better _ _ _ _ false _ _ _ _ _ _
             Hrun Hinc Hc Hp (or_intror eq_refl)).
Defined.

(** X7.  The two directions exclude each other.  When the candidate and the
    incumbent both carry the metric, a candidate that [compare_models]
    judges better with [higher_is_better=True] is judged not better with
    [higher_is_better=False] on the same store. *)
Theorem compare_models_one_direction self s rid m cand s1 pm s2 c p :
  get_run rid s = (Returns cand, s1) ->
  get_production_model_metrics self s1 = (Returns (Some pm), s2) ->
  cand !! m = Some c ->
  pm !! m = Some p ->
  fst (compare_models self rid m true s) = Returns true ->
  fst (compare_models self rid m false s) = Returns false.
Proof.
  intros Hrun Hinc Hc Hp.
  rewrite !(compare_models_decides _ _ _ m _ _ _ _ _ Hrun Hinc).
  unfold compare_policy. rewrite Hc, Hp. intros [= Hlt].
  by rewrite (float_lt_asym _ _ Hlt).
Qed.

Lemma compare_models_one_direction_witness :
  let s := {| models := models (Examples.incumbent_store []);
              runs := <["run-3" := Examples.auc 0.85]> Examples.two_runs;
              faults := [] |} in
  fst (compare_models Examples.registry "run-3" "auc" true s) = Returns true /\
  fst (compare_models Examples.registry "run-3" "auc" false s) = Returns false.
Proof.
  cbv zeta.
  set (s := {| models := models (Examples.incumbent_store []);
               runs := <["run-3" := Examples.auc 0.85]> Examples.two_runs;
               faults := [] |}).
  assert (Hrun : get_run "run-3" s = (Returns (Examples.auc 0.85), tick s))
    by reflexivity.
  assert (Hinc : get_production_model_metrics Examples.registry (tick s)
                 = (Returns (Some (Examples.auc 0.80)), tick (tick (tick s))))
    by reflexivity.
  assert (Hc : Examples.auc 0.85 !! "auc" = Some 0.85%float) by reflexivity.
  assert (Hp : Examples.auc 0.80 !! "auc" = Some 0.80%float) by reflexivity.
  assert (Htrue : fst (compare_models Examples.registry "run-3" "auc" true s)
                  = Returns true) by (vm_compute; reflexivity).
  split; [exact Htrue|].
  exact (compare_models_one_direction _ _ _ _ _ _ _ _ _ _ Hrun Hinc Hc Hp Htrue).
Defined.

(** ** Automatic promotion: failures and invariants *)

(** X8.  [auto_promote_if_better] registers before it looks at anything.
    When the registration goes through and the fetch of the candidate's own
    run then raises, the exception propagates to the caller, and the
    version registered a moment earlier stays in the registry, in stage
    "None"; the runs are untouched.  When the store does not know the run,
    the registration itself raises and no version is created. *)
Theorem auto_promote_if_better_failure_leaves_version self rid m hib s :
  next_fault s = false ->
  let name := model_name self in
  let vs := versions_of s name in
  (is_Some (runs s !! rid) -> next_fault (tick s) = true ->
   exists s',
     auto_promote_if_better self rid m hib s = (Raises MlflowException, s') /\
     versions_of s' name
     = (vs ++ [mkModelVersion (next_version vs) StageNone rid])%list /\
     runs s' = runs s) /\
  (runs s !! rid = None ->
   exists s',
     auto_promote_if_better self rid m hib s = (Raises MlflowException, s') /\
     versions_of s' name = vs /\
     runs s' = runs s).
Proof.
  intros Hf1 name vs.
  split; unfold auto_promote_if_better, bind at 1;
    rewrite register_model_eq, Hf1.
  - intros [cand Hcand] Hf2. rewrite Hcand. cbv zeta.
    unfold compare_models, bind. rewrite get_run_eq.
    match goal with |- context [next_fault ?s1] =>
      change (next_fault s1) with (next_fault (tick s)) end.
    rewrite Hf2. eexists. split; [reflexivity|]. split; [|reflexivity].
    rewrite versions_of_tick. apply versions_of_same.
  - intros ->. eexists. split; [reflexivity|]. split; reflexivity.
Qed.

Lemma auto_promote_if_better_failure_leaves_version_witness :
  let s := Examples.incumbent_store [false; true] in
  exists s',
    auto_promote_if_better Examples.registry "run-2" "auc" true s
      = (Raises MlflowException, s') /\
    versions_of s' "noshow-prediction-model"
    = [mkModelVersion 1 Production "run-1"; mkModelVersion 2 StageNone "run-2"].
Proof.
  cbv zeta.
  assert (Hrun : is_Some (runs (Examples.incumbent_store [false; true]) !! "run-2"))
    by (by exists (Examples.auc 0.75)).
  destruct (auto_promote_if_better_failure_leaves_version Examples.registry
              "run-2" "auc" true (Examples.incumbent_store [false; true]) eq_refl)
    as [Hfetch _].
  destruct (Hfetch Hrun eq_refl) as (s' & Hauto & Hvs & _).
  exists s'. split; [exact Hauto|]. exact Hvs.
Defined.

(** X9.  [auto_promote_if_better] keeps the registry well formed.  If, for
    every model name, version numbers are not repeated and at most one
    version is in Production before the call, the same holds after it,
    whether it returns a version, returns [None] or raises. *)
Theorem auto_promote_if_better_keeps_registry_ok self rid m hib s :
  (forall name, registry_ok (versions_of s name)) ->
  forall name, registry_ok (versions_of (snd (auto_promote_if_better self rid m hib s)) name).
Proof.
  intros Hok.
  pose proof (after_call_ok s (CallRegister self rid) Hok) as Hok1. simpl in Hok1.
  unfold auto_promote_if_better, bind.
  destruct (register_model self rid s) as [[v|e] s1]; simpl in Hok1 |- *;
    [|exact Hok1].
  destruct (compare_models self rid m hib s1) as [[b|e] s2] eqn:Hcmp; simpl;
    apply compare_models_frame in Hcmp as [Hm _].
  - assert (Hok2 : forall name, registry_ok (versions_of s2 name)).
    { intros name. rewrite (versions_of_models _ _ _ Hm). apply Hok1. }
    destruct b; [|exact Hok2].
    pose proof (after_call_ok s2 (CallPromote self v) Hok2) as Hok3. simpl in Hok3.
    destruct (promote_to_production self v true s2) as [[ok|e] s3];
      simpl in Hok3 |- *; [|exact Hok3].
    destruct ok; exact Hok3.
  - intros name. rewrite (versions_of_models _ _ _ Hm). apply Hok1.
Qed.

Lemma auto_promote_if_better_keeps_registry_ok_witness :
  registry_ok
    (versions_of
       (snd (auto_promote_if_better Examples.registry "run-2" "auc" false
               (Examples.three_versions [])))
       "noshow-prediction-model").
Proof.
  exact (auto_promote_if_better_keeps_registry_ok Examples.registry "run-2" "auc"
           false (Examples.three_versions []) three_versions_ok
           "noshow-prediction-model").
Defined.

Lemma identities_archive_latest vs :
  (fun mv => (version mv, run_id mv)) <$> archive_latest vs
  = (fun mv => (version mv, run_id mv)) <$> vs.
Proof.
  unfold archive_latest. destruct (latest_in_stage _ _); [|reflexivity].
  apply identities_set_stage.
Qed.

(** After a fresh registration and its promotion, the version the client
    reports for stage Production is the fresh one. *)
Lemma latest_after_promotion vs rid :
  let v := next_version vs in
  exists r,
    latest_in_stage
      (set_stage v Production <$> archive_latest (vs ++ [mkModelVersion v StageNone rid]))
      Production = Some r /\
    run_id r = rid /\ version r = v.
Proof.
  intros v. set (new := mkModelVersion v StageNone rid).
  set (L := set_stage v Production <$> archive_latest (vs ++ [new])).
  assert (Hx : exists x, x ∈ L /\ current_stage x = Production /\ version x = v).
  { assert (Hhas : has_version (archive_latest (vs ++ [new])) v = true).
    { rewrite has_version_archive_latest. apply has_version_true.
      exists new. split; [|reflexivity]. apply elem_of_app. right.
      by apply list_elem_of_singleton. }
    apply has_version_true in Hhas as (a & Ha & Hva).
    exists (set_stage v Production a). split; [|split].
    - apply list_elem_of_fmap. by exists a.
    - unfold set_stage. rewrite decide_True by done. reflexivity.
    - by rewrite version_set_stage. }
  destruct Hx as (x & Hxin & Hxst & Hxv).
  destruct (latest_in_stage L Production) as [r|] eqn:Hlatest.
  - exists r. split; [reflexivity|].
    destruct (latest_in_stage_Some _ _ _ Hlatest) as (Hrin & _ & Hmax).
    specialize (Hmax x Hxin Hxst). rewrite Hxv in Hmax.
    assert (Hid : (version r, run_id r)
                  ∈ (fun mv => (version mv, run_id mv)) <$> (vs ++ [new])%list).
    { rewrite <- identities_archive_latest.
      rewrite <- (identities_set_stage v Production).
      apply list_elem_of_fmap. by exists r. }
    apply list_elem_of_fmap in Hid as (b & Hb & Hbin).
    injection Hb as Hbv Hbr.
    apply elem_of_app in Hbin as [Hbin|Hbin].
    + pose proof (next_version_fresh _ _ Hbin). fold v in H. lia.
    + apply list_elem_of_singleton in Hbin. subst b. simpl in *. auto.
  - exfalso.
    exact (proj1 (latest_in_stage_None _ _) Hlatest x Hxin Hxst).
Qed.

(** X10.  Round trip through the registry.  When [auto_promote_if_better]
    returns a version and the next two client calls go through,
    [get_production_model_metrics] returns the metrics logged by the run
    that was just promoted: the incumbent the next candidate is compared
    with is the version that has just won. *)
Theorem auto_promote_then_production_metrics self rid m hib s v s' :
  auto_promote_if_better self rid m hib s = (Returns (Some v), s') ->
  next_fault s' = false ->
  next_fault (tick s') = false ->
  exists cand,
    runs s !! rid = Some cand /\
    fst (get_production_model_metrics self s') = Returns (Some cand).
Proof.
  intros Hauto Hf1' Hf2'.
  unfold auto_promote_if_better, bind in Hauto.
  rewrite register_model_eq in Hauto.
  destruct (next_fault s) eqn:Hf1; [discriminate|].
  destruct (runs s !! rid) as [cand0|] eqn:Hcand0; [|discriminate].
  cbv beta iota zeta in Hauto.
  set (vs := versions_of s (model_name self)) in *.
  set (v0 := next_version vs) in *.
  set (registered := set_versions (tick s) (model_name self)
                       (vs ++ [mkModelVersion v0 StageNone rid])) in *.
  destruct (compare_models self rid m hib registered) as [[b|e] s2] eqn:Hcmp;
    [|discriminate].
  destruct b; [|unfold ret in Hauto; discriminate].
  destruct (promote_to_production_cases self v0 s2)
    as (ok & s3 & Hp & Hruns & _ & Hsame).
  rewrite Hp in Hauto. unfold ret in Hauto. destruct ok; [|discriminate].
  injection Hauto as <- <-.
  destruct Hsame as [_ Hvs3].
  pose proof (compare_models_frame _ _ _ _ _ _ _ Hcmp) as [Hm2 Hr2].
  exists cand0. split; [reflexivity|].
  rewrite get_production_model_metrics_eq, Hf1', Hf2', Hvs3.
  rewrite (versions_of_models _ _ _ Hm2).
  unfold registered at 1. rewrite versions_of_same.
  destruct (latest_after_promotion vs rid) as (r & Hlatest & Hrid & _).
  fold v0 in Hlatest. rewrite Hlatest. simpl.
  rewrite Hrid, Hruns, Hr2. exact (f_equal Returns Hcand0).
Qed.

Lemma auto_promote_then_production_metrics_witness :
  let s := {| models := models (Examples.incumbent_store []);
              runs := <["run-3" := Examples.auc 0.85]> Examples.two_runs;
              faults := [] |} in
  let s' := snd (auto_promote_if_better Examples.registry "run-3" "auc" true s) in
  auto_promote_if_better Examples.registry "run-3" "auc" true s
    = (Returns (Some 2%N), s') /\
  fst (get_production_model_metrics Examples.registry s')
    = Returns (Some (Examples.auc 0.85)).
Proof.
  cbv zeta.
  set (s := {| models := models (Examples.incumbent_store []);
               runs := <["run-3" := Examples.auc 0.85]> Examples.two_runs;
               faults := [] |}).
  assert (Hauto : auto_promote_if_better Examples.registry "run-3" "auc" true s
                  = (Returns (Some 2%N),
                     snd (auto_promote_if_better Examples.registry "run-3" "auc"
                            true s)))
    by (vm_compute; reflexivity).
  split; [exact Hauto|].
  destruct (auto_promote_then_production_metrics _ _ _ _ _ _ _ Hauto
              eq_refl eq_refl) as (cand & Hcand & Hget).
  rewrite Hget. vm_compute in Hcand. injection Hcand as <-. reflexivity.
Defined.

(** ** The serving endpoints *)

(** X11.  [reload_model] cannot answer HTTP 500: [load_production_model]
    swallows every failure, so the handler always returns status
    "success" with the [model_info] the reload left, also when the load
    failed and the process fell back, as when the first registry call
    raises. *)
Theorem reload_model_always_reports_success MODEL_NAME versions_as g s :
  exists g' s',
    Serving.load_production_model MODEL_NAME versions_as g s = (Returns g', s') /\
    Serving.reload_model MODEL_NAME versions_as g s
    = (Returns (g', Returns {| Serving.ReloadReport.status := "success";
                               Serving.ReloadReport.message :=
                                 "Model reloaded successfully";
                               Serving.ReloadReport.model_info :=
                                 Serving.model_info g' |}), s') /\
    (next_fault s = true -> g' = fallback_globals).
Proof.
  destruct (load_production_model_cases MODEL_NAME versions_as g s)
    as (g' & s' & Hload & _).
  exists g', s'. split; [exact Hload|]. split.
  - unfold Serving.reload_model. rewrite Hload. reflexivity.
  - intros Hf. pose proof (load_production_model_eq MODEL_NAME versions_as g s) as Heq.
    cbv zeta in Heq. rewrite Hf, Hload in Heq. congruence.
Qed.


(** With the default file store and pydantic 2, a request served by a
    loaded predictor whose pipeline works is answered HTTP 500; the same
    request is answered with version "2" under pydantic 1. *)
Example predict_with_integer_version :
  fst (Serving.predict "noshow-prediction-model" Serving.IntVersion Serving.Pydantic2
         Examples.constant_score "2024-01-01T00:00:00" Examples.request
         Serving.initial_globals (Examples.three_versions []))
    = Returns (loaded_globals "noshow-prediction-model" Serving.IntVersion 2
                 "Production",
               Raises (HTTPException 500)) /\
  fst (Serving.predict "noshow-prediction-model" Serving.IntVersion Serving.Pydantic1
         Examples.constant_score "2024-01-01T00:00:00" Examples.request
         Serving.initial_globals (Examples.three_versions []))
    = Returns (loaded_globals "noshow-prediction-model" Serving.IntVersion 2
                 "Production",
               Returns {| Serving.probability := 0.75; Serving.is_no_show := true;
                          Serving.model_name := "noshow-prediction-model";
                          Serving.model_version := "2";
                          Serving.prediction_timestamp := "2024-01-01T00:00:00" |}).
Proof. split; vm_compute; reflexivity. Qed.

(** X13.  [predict] reloads on every request, so what the process held
    before does not matter: as soon as the configured name has a version,
    two calls on the same store return the same response and leave the same
    globals, whatever globals they started from. *)
Theorem predict_ignores_previous_globals
    MODEL_NAME versions_as validation score now request g1 g2 s :
  versions_of s MODEL_NAME <> [] ->
  Serving.predict MODEL_NAME versions_as validation score now request g1 s
  = Serving.predict MODEL_NAME versions_as validation score now request g2 s.
Proof.
  intros Hne. unfold Serving.predict, bind.
  pose proof (load_production_model_eq MODEL_NAME versions_as g1 s) as H1.
  pose proof (load_production_model_eq MODEL_NAME versions_as g2 s) as H2.
  cbv zeta in H1, H2.
  assert (Hload : Serving.load_production_model MODEL_NAME versions_as g1 s
                  = Serving.load_production_model MODEL_NAME versions_as g2 s).
  { rewrite H1, H2.
    destruct (next_fault s); [reflexivity|].
    destruct (is_registered s MODEL_NAME); [|reflexivity].
    destruct (latest_in_stage _ _); [reflexivity|].
    destruct (next_fault (tick s)); [reflexivity|].
    destruct (Serving.max_by_version _) eqn:Hmax; [reflexivity|].
    by apply max_by_version_None in Hmax. }
  rewrite Hload. reflexivity.
Qed.

Lemma predict_ignores_previous_globals_witness :
  versions_of (Examples.three_versions []) "noshow-prediction-model" <> [] /\
  Serving.predict "noshow-prediction-model" Serving.StrVersion Serving.Pydantic2
    Examples.constant_score "2024-01-01T00:00:00" Examples.request
    (Examples.serving_v1 Serving.StrVersion) (Examples.three_versions [])
  = Serving.predict "noshow-prediction-model" Serving.StrVersion Serving.Pydantic2
      Examples.constant_score "2024-01-01T00:00:00" Examples.request
      Serving.initial_globals (Examples.three_versions []).
Proof.
  assert (Hne : versions_of (Examples.three_versions []) "noshow-prediction-model"
                <> []) by (vm_compute; discriminate).
  split; [exact Hne|].
  exact (predict_ignores_previous_globals _ _ _ _ _ _ _ _ _ Hne).
Defined.

(** X14.  Reloading is idempotent against a store that answers: a second
    [load_production_model] right after the first leaves the globals the
    first one left, also when the registry has no version. *)
Theorem load_production_model_idempotent MODEL_NAME versions_as g s g1 s1 :
  fault_free s ->
  Serving.load_production_model MODEL_NAME versions_as g s = (Returns g1, s1) ->
  exists s2,
    Serving.load_production_model MODEL_NAME versions_as g1 s1 = (Returns g1, s2).
Proof.
  intros Hff Hload.
  destruct (load_production_model_answering MODEL_NAME versions_as g s Hff)
    as (s' & Hload' & Hmodels & Hff').
  rewrite Hload in Hload'. injection Hload' as Hg1 <-.
  destruct (load_production_model_answering MODEL_NAME versions_as g1 s1 Hff')
    as (s2 & Hload2 & _ & _).
  exists s2. rewrite Hload2, (versions_of_models _ _ _ Hmodels).
  assert (Hreg : is_registered s1 MODEL_NAME = is_registered s MODEL_NAME).
  { unfold is_registered. by rewrite Hmodels. }
  rewrite Hreg. f_equal. f_equal. rewrite Hg1.
  destruct (is_registered s MODEL_NAME); [|reflexivity].
  destruct (resolved _) as [[v stage]|]; reflexivity.
Qed.

Lemma load_production_model_idempotent_witness :
  fault_free Examples.no_versions_store /\
  exists g1 s1 s2,
    Serving.load_production_model "noshow-prediction-model" Serving.IntVersion
      (Examples.serving_v1 Serving.IntVersion) Examples.no_versions_store
      = (Returns g1, s1) /\
    Serving.load_production_model "noshow-prediction-model" Serving.IntVersion g1 s1
    = (Returns g1, s2).
Proof.
  split; [reflexivity|].
  assert (Hload : Serving.load_production_model "noshow-prediction-model"
                    Serving.IntVersion (Examples.serving_v1 Serving.IntVersion)
                    Examples.no_versions_store
                  = (Returns (no_model_globals (Examples.serving_v1 Serving.IntVersion)),
                     tick (tick Examples.no_versions_store)))
    by reflexivity.
  destruct (load_production_model_idempotent "noshow-prediction-model"
              Serving.IntVersion (Examples.serving_v1 Serving.IntVersion)
              Examples.no_versions_store _ _ eq_refl Hload)
    as [s2 H2].
  eexists _, _, s2. split; [exact Hload|exact H2].
Defined.

(** X15.  What [health] says after start-up.  Against a store that
    answers, the process reports [model_loaded] true exactly when the
    configured name has at least one version.  When the first registry call
    of the start-up raises, [health] still reports status "healthy", with
    [model_loaded] false and the fallback identity. *)
Theorem startup_then_health MLFLOW_TRACKING_URI MODEL_NAME versions_as s :
  exists g s',
    Serving.startup_event MODEL_NAME versions_as s = (Returns g, s') /\
    (fault_free s ->
     Serving.HealthReport.model_loaded (Serving.health MLFLOW_TRACKING_URI g) = true
     <-> versions_of s MODEL_NAME <> []) /\
    (next_fault s = true ->
     Serving.health MLFLOW_TRACKING_URI g
     = {| Serving.HealthReport.status := "healthy";
          Serving.HealthReport.model_loaded := false;
          Serving.HealthReport.model_info :=
            Serving.info "fallback" (Serving.PyStr "0.0.0") "error";
          Serving.HealthReport.mlflow_uri := MLFLOW_TRACKING_URI |}).
Proof.
  unfold Serving.startup_event.
  destruct (load_production_model_cases MODEL_NAME versions_as Serving.initial_globals s)
    as (g & s' & Hload & _).
  exists g, s'. split; [exact Hload|]. split.
  - intros Hff.
    destruct (load_production_model_answering MODEL_NAME versions_as
                Serving.initial_globals s Hff)
      as (s1 & Hload1 & _ & _).
    rewrite Hload in Hload1. injection Hload1 as -> _.
    destruct (is_registered s MODEL_NAME) eqn:Hreg.
    + destruct (resolved (versions_of s MODEL_NAME)) as [[v stage]|] eqn:Hres; simpl.
      * split; [|done]. intros _ Hnil. rewrite Hnil in Hres. discriminate.
      * split; [discriminate|]. intros Hne.
        destruct (resolved_nonempty _ Hne) as [x Hx]. congruence.
    + simpl. split; [discriminate|]. intros Hne.
      by rewrite (versions_of_unregistered _ _ Hreg) in Hne.
  - intros Hf.
    pose proof (load_production_model_eq MODEL_NAME versions_as
                  Serving.initial_globals s) as Heq.
    cbv zeta in Heq. rewrite Hf, Hload in Heq.
    injection Heq as -> _. reflexivity.
Qed.

(** X16.  Every prediction consults the registry and never writes to it.
    [predict] leaves the version lists and the runs of the store as they
    were, and it costs between one and three client calls: at least two
    exactly when the first one, the lookup of the Production version,
    returns. *)
Theorem predict_reads_registry_only
    MODEL_NAME versions_as validation score now request g s :
  let s' := snd (Serving.predict MODEL_NAME versions_as validation score now
                   request g s) in
  models s' = models s /\ runs s' = runs s /\
  exists k, 1 <= k <= 3 /\ s' = Nat.iter k tick s /\
            (2 <= k <->
             exists r, fst (get_latest_versions MODEL_NAME [Production] s)
                       = Returns r).
Proof.
  cbv zeta. unfold Serving.predict, bind.
  pose proof (load_production_model_eq MODEL_NAME versions_as g s) as Heq.
  cbv zeta in Heq.
  rewrite Heq, get_latest_versions_eq. clear Heq.
  destruct (next_fault s); simpl.
  { split; [reflexivity|]. split; [reflexivity|].
    exists 1. repeat split; [lia|lia|lia|]. intros [r Hr]. discriminate. }
  destruct (is_registered s MODEL_NAME); simpl.
  2: { split; [reflexivity|]. split; [reflexivity|].
       exists 1. repeat split; [lia|lia|lia|]. intros [r Hr]. discriminate. }
  destruct (latest_in_stage _ _).
  - destruct (next_fault (tick s)); simpl;
      (split; [reflexivity|]; split; [reflexivity|];
       exists 2; repeat split; try lia; by eexists).
  - destruct (next_fault (tick s)); simpl.
    { split; [reflexivity|]. split; [reflexivity|].
      exists 2. repeat split; try lia. by eexists. }
    destruct (Serving.max_by_version _); simpl.
    + destruct (next_fault (tick (tick s))); simpl;
        (split; [reflexivity|]; split; [reflexivity|];
         exists 3; repeat split; try lia; by eexists).
    + split; [reflexivity|]. split; [reflexivity|].
      exists 2. repeat split; try lia. by eexists.
Qed.

(** ** The deployment trigger *)

Lemma truthy_Some t : Deployment.truthy (Some t) = true <-> t <> "".
Proof.
  unfold Deployment.truthy. rewrite negb_true_iff. split.
  - intros H ->. discriminate.
  - intros H. apply String.eqb_neq. exact H.
Qed.

(** How [trigger_github_workflow] unfolds, case by case. *)
Lemma trigger_github_workflow_eq w model_version repo_owner repo_name
    workflow_file github_token :
  let cmd := ["gh"; "workflow"; "run"; workflow_file;
              "-f"; "model_version=" +:+ model_version;
              "-R"; repo_owner +:+ "/" +:+ repo_name] in
  let url := "https://api.github.com/repos/" +:+ repo_owner +:+ "/" +:+ repo_name
             +:+ "/actions/workflows/" +:+ workflow_file +:+ "/dispatches" in
  let headers t := [("Authorization", "token " +:+ t);
                    ("Accept", "application/vnd.github.v3+json")] in
  let data := {| Deployment.ref := "main";
                 Deployment.inputs := [("model_version", model_version)] |} in
  let api :=
    match github_token with
    | Some t =>
        if Deployment.truthy (Some t) then
          match Deployment.requests_post w url (headers t) data with
          | Deployment.Response status _ =>
              ([Deployment.Ran cmd; Deployment.Posted url (headers t) data],
               if (status =? 204)%Z then Deployment.Returned else Deployment.SysExit 1)
          | Deployment.PostRaises =>
              ([Deployment.Ran cmd; Deployment.Posted url (headers t) data],
               Deployment.Propagated)
          end
        else ([Deployment.Ran cmd], Deployment.SysExit 1)
    | None => ([Deployment.Ran cmd], Deployment.SysExit 1)
    end in
  Deployment.trigger_github_workflow w model_version repo_owner repo_name
    workflow_file github_token
  = match Deployment.subprocess_run w cmd with
    | Deployment.CompletedProcess rc _ =>
        if (rc =? 0)%Z then ([Deployment.Ran cmd], Deployment.Returned) else api
    | Deployment.FileNotFoundError => api
    | Deployment.ProcessRaises => ([Deployment.Ran cmd], Deployment.Propagated)
    end.
Proof.
  cbv zeta. unfold Deployment.trigger_github_workflow, Deployment.trigger_via_api.
  destruct (Deployment.subprocess_run w _) as [|rc err|]; [|destruct (rc =? 0)%Z|];
    try reflexivity;
    (destruct github_token as [t|]; [|reflexivity];
     destruct (Deployment.truthy (Some t)); [|reflexivity];
     destruct (Deployment.requests_post w _ _ _); reflexivity).
Qed.

Ltac refute_rhs :=
  let H := fresh "H" in
  let Hl := fresh "Hl" in
  intros [H|H];
  [ repeat match type of H with
           | ex _ => let x := fresh "x" in destruct H as [x H]
           end; congruence
  | repeat match type of H with
           | ex _ => let x := fresh "x" in destruct H as [x H]
           end;
    destruct H as [Hl H];
    first [discriminate Hl | injection Hl as <- <- <-; congruence] ].

Ltac prove_rhs :=
  first [ left; first [reflexivity | eexists; reflexivity]
        | right; do 4 eexists; split; [reflexivity|eassumption]
        | right; do 3 eexists; split; [reflexivity|eassumption] ].

Ltac iff_side :=
  split; [ first [discriminate | intros _; prove_rhs]
         | first [refute_rhs | done] ].

Ltac exit_side :=
  let c := fresh "c" in
  let H := fresh "H" in
  intros c H; first [discriminate H | by injection H as <-].

Ltac trigger_done :=
  eexists; split; [reflexivity|]; simpl;
  split; [iff_side|split; [exit_side|iff_side]].

(** X17.  How the trigger ends.  It always tries the [gh] command first.
    It returns normally exactly when [gh] exits with status 0, or the REST
    API was contacted and answered 204; when it leaves through [sys.exit]
    the exit status is 1; an exception reaches the caller exactly when
    [subprocess.run] raised something other than FileNotFoundError or the
    HTTP request itself raised. *)
Theorem trigger_github_workflow_ending w model_version repo_owner repo_name
    workflow_file github_token :
  exists cmd rest,
    fst (Deployment.trigger_github_workflow w model_version repo_owner repo_name
           workflow_file github_token) = Deployment.Ran cmd :: rest /\
    let e := snd (Deployment.trigger_github_workflow w model_version repo_owner
                    repo_name workflow_file github_token) in
    (e = Deployment.Returned <->
       (exists err, Deployment.subprocess_run w cmd = Deployment.CompletedProcess 0 err) \/
       (exists url hs d txt,
          rest = [Deployment.Posted url hs d] /\
          Deployment.requests_post w url hs d = Deployment.Response 204 txt)) /\
    (forall c, e = Deployment.SysExit c -> c = 1%Z) /\
    (e = Deployment.Propagated <->
       Deployment.subprocess_run w cmd = Deployment.ProcessRaises \/
       (exists url hs d,
          rest = [Deployment.Posted url hs d] /\
          Deployment.requests_post w url hs d = Deployment.PostRaises)).
Proof.
  pose proof (trigger_github_workflow_eq w model_version repo_owner repo_name
                workflow_file github_token) as Heq. cbv zeta in Heq.
  rewrite Heq. clear Heq.
  match goal with |- context [Deployment.subprocess_run w ?c] => set (cmd := c) end.
  exists cmd.
  destruct (Deployment.subprocess_run w cmd) as [|rc err|] eqn:Hrun;
    [|destruct (rc =? 0)%Z eqn:Hrc;
      [apply Z.eqb_eq in Hrc; subst rc|apply Z.eqb_neq in Hrc]|].
  - destruct github_token as [t|]; [destruct (Deployment.truthy (Some t))|].
    + match goal with |- context [Deployment.requests_post w ?u ?h ?d] =>
        destruct (Deployment.requests_post w u h d) as [status txt|] eqn:Hpost
      end.
      * destruct (status =? 204)%Z eqn:Hst.
        -- apply Z.eqb_eq in Hst. subst status. trigger_done.
        -- apply Z.eqb_neq in Hst. trigger_done.
      * trigger_done.
    + trigger_done.
    + trigger_done.
  - trigger_done.
  - destruct github_token as [t|]; [destruct (Deployment.truthy (Some t))|].
    + match goal with |- context [Deployment.requests_post w ?u ?h ?d] =>
        destruct (Deployment.requests_post w u h d) as [status txt|] eqn:Hpost
      end.
      * destruct (status =? 204)%Z eqn:Hst.
        -- apply Z.eqb_eq in Hst. subst status. trigger_done.
        -- apply Z.eqb_neq in Hst. trigger_done.
      * trigger_done.
    + trigger_done.
    + trigger_done.
  - trigger_done.
Qed.

(** X18.  When the REST API is contacted.  The trigger first runs [gh]
    with a command line built from the workflow file, the model version and
    the repository only, not from the token.  It sends an HTTP
    request exactly when [gh] is missing or exits with a non-zero status
    and the token given is a non-empty string (an empty token counts as no
    token).  It then sends exactly one request: a dispatch on ref "main"
    whose only input is the model version, with the token in the
    Authorization header. *)
Theorem trigger_github_workflow_api_use w model_version repo_owner repo_name
    workflow_file github_token :
  let cmd := ["gh"; "workflow"; "run"; workflow_file;
              "-f"; "model_version=" +:+ model_version;
              "-R"; repo_owner +:+ "/" +:+ repo_name] in
  let url := "https://api.github.com/repos/" +:+ repo_owner +:+ "/" +:+ repo_name
             +:+ "/actions/workflows/" +:+ workflow_file +:+ "/dispatches" in
  let gh_failed :=
    Deployment.subprocess_run w cmd = Deployment.FileNotFoundError \/
    exists rc err, Deployment.subprocess_run w cmd = Deployment.CompletedProcess rc err /\
                   rc <> 0%Z in
  exists rest,
    fst (Deployment.trigger_github_workflow w model_version repo_owner repo_name
           workflow_file github_token) = Deployment.Ran cmd :: rest /\
    (rest = [] \/
     exists t, github_token = Some t /\ t <> "" /\
       rest = [Deployment.Posted url
                 [("Authorization", "token " +:+ t);
                  ("Accept", "application/vnd.github.v3+json")]
                 {| Deployment.ref := "main";
                    Deployment.inputs := [("model_version", model_version)] |}]) /\
    (rest <> [] <-> gh_failed /\ Deployment.truthy github_token = true).
Proof.
  cbv zeta.
  pose proof (trigger_github_workflow_eq w model_version repo_owner repo_name
                workflow_file github_token) as Heq. cbv zeta in Heq.
  rewrite Heq. clear Heq.
  match goal with |- context [Deployment.subprocess_run w ?c] => set (cmd := c) end.
  destruct (Deployment.subprocess_run w cmd) as [|rc err|] eqn:Hrun;
    [|destruct (rc =? 0)%Z eqn:Hrc;
      [apply Z.eqb_eq in Hrc; subst rc|apply Z.eqb_neq in Hrc]|].
  - destruct github_token as [t|];
      [destruct (Deployment.truthy (Some t)) eqn:Htruthy|].
    + apply truthy_Some in Htruthy.
      destruct (Deployment.requests_post w _ _ _) as [status txt|];
        (eexists; split; [reflexivity|]; split;
         [right; exists t; auto|split; [intros _; auto|discriminate]]).
    + eexists. split; [reflexivity|]. split; [by left|].
      split; [done|]. intros [_ H]. discriminate.
    + eexists. split; [reflexivity|]. split; [by left|].
      split; [done|]. intros [_ H]. discriminate.
  - eexists. split; [reflexivity|]. split; [by left|].
    split; [done|]. intros [[H|(rc & err' & H & Hne)] _]; congruence.
  - destruct github_token as [t|];
      [destruct (Deployment.truthy (Some t)) eqn:Htruthy|].
    + apply truthy_Some in Htruthy.
      destruct (Deployment.requests_post w _ _ _) as [status txt|];
        (eexists; split; [reflexivity|]; split;
         [right; exists t; auto|
          split; [intros _; split; [right; eauto|done]|discriminate]]).
    + eexists. split; [reflexivity|]. split; [by left|].
      split; [done|]. intros [_ H]. discriminate.
    + eexists. split; [reflexivity|]. split; [by left|].
      split; [done|]. intros [_ H]. discriminate.
  - eexists. split; [reflexivity|]. split; [by left|].
    split; [done|]. intros [[H|(rc & err' & H & Hne)] _]; congruence.
Qed.

(** An empty token is no token: [gh] is missing, the token is the empty
    string, and the script leaves with status 1 without any request. *)
Example trigger_with_empty_token :
  Deployment.trigger_github_workflow
    (Examples.world_of Deployment.FileNotFoundError 204)
    "7" "acme" "noshow" "model-promotion.yml" (Some "")
  = ([Deployment.Ran ["gh"; "workflow"; "run"; "model-promotion.yml";
                      "-f"; "model_version=7"; "-R"; "acme/noshow"]],
     Deployment.SysExit 1).
Proof. reflexivity. Qed.
